(** * gommap: memory mapped regions and their bounds validation

    A shallow embedding of the Go package [gommap] (gommap.go, the slice
    based predecessor of it, and the per-architecture [mmap_syscall]
    adapters), together with the properties of its bounds validation,
    its error paths and its region bookkeeping.

    Go's [uintptr], [int] and [int64] are integers of [Z] whose wrap-around
    is written out; the kernel is an oracle that answers each call from the
    history of calls issued so far, and every call is appended to a log. *)

From Stdlib Require Import ZArith List String Bool Lia.
Import ListNotations.
Local Open Scope Z_scope.

(** ** Machine integers *)

(** The pointer width decides [uintptr] and [int]; [int64] is always 64. *)
Inductive arch : Type := Arch32 | Arch64.

Definition ptr_bits (a : arch) : Z :=
  match a with Arch32 => 32 | Arch64 => 64 end.

(** Conversion to an unsigned [w]-bit integer keeps the low [w] bits. *)
Definition wrapU (w x : Z) : Z := x mod 2 ^ w.

(** Conversion to a signed [w]-bit integer: the same bits, two's complement. *)
Definition wrapS (w x : Z) : Z := (x + 2 ^ (w - 1)) mod 2 ^ w - 2 ^ (w - 1).

Definition to_uintptr (a : arch) (x : Z) : Z := wrapU (ptr_bits a) x.
Definition to_int (a : arch) (x : Z) : Z := wrapS (ptr_bits a) x.
Definition to_int64 (x : Z) : Z := wrapS 64 x.

Definition max_int (a : arch) : Z := 2 ^ (ptr_bits a - 1) - 1.
Definition min_int (a : arch) : Z := - 2 ^ (ptr_bits a - 1).
Definition in_int (a : arch) (x : Z) : Prop := min_int a <= x <= max_int a.
Definition in_int64 (x : Z) : Prop := - 2 ^ 63 <= x <= 2 ^ 63 - 1.
Definition in_uintptr (a : arch) (x : Z) : Prop := 0 <= x < 2 ^ ptr_bits a.

(** ** Slices, errors and the region type *)

(** [reflect.SliceHeader]: the address of the first byte, the length and
    the capacity.  The code never reads the bytes of a mapped region, only
    its header. *)
Record SliceHeader : Type := mkSlice {
  Data : Z;   (* uintptr *)
  Len : Z;    (* int *)
  Cap : Z     (* int *)
}.

(** The nil slice is the zero header. *)
Definition nil_slice : SliceHeader := mkSlice 0 0 0.

(** [s[:]] denotes the same bytes as [s]: same address, length and capacity. *)
Definition slice_all (s : SliceHeader) : SliceHeader :=
  mkSlice (Data s) (Len s) (Cap s).

(** [s[lo:hi]] on a byte slice; out of range indices panic ([None]).  The
    pointer advances by [lo], except when nothing is left of the capacity:
    then it stays at the base, so that it never points past the array. *)
Definition slice_range (a : arch) (s : SliceHeader) (lo hi : Z)
  : option SliceHeader :=
  if (0 <=? lo) && (lo <=? hi) && (hi <=? Cap s)
  then Some (mkSlice (if Cap s - lo =? 0 then Data s
                      else to_uintptr a (Data s + lo))
                     (hi - lo) (Cap s - lo))
  else None.

(** A header whose bytes are memory: a non-negative length, and a byte
    range [Data, Data + Len) that ends inside the address space. *)
Definition addressable (a : arch) (s : SliceHeader) : Prop :=
  0 <= Data s /\ 0 <= Len s /\ Data s + Len s < 2 ^ ptr_bits a.

(** A slice as the language builds them: the length within the capacity,
    and the whole capacity inside the address space. *)
Definition wf_slice (a : arch) (s : SliceHeader) : Prop :=
  0 <= Data s /\ 0 <= Len s <= Cap s /\ Data s + Cap s < 2 ^ ptr_bits a.

(** [os.Error]: an errno of the kernel or a message of [os.NewError];
    the nil error is [None]. *)
Inductive error : Type :=
| Errno (e : Z)
| NewError (msg : string).

Definition containment_error : error :=
  NewError "Region must be a slice of mmap.Data".

Definition EINVAL : Z := 22.

(** [type MMap struct { Data []uint8; internalData []uint8 }].  The field
    [Data] of the struct is [MData] here, [Data] being the header's. *)
Record MMap : Type := mkMMap {
  MData : SliceHeader;
  internalData : SliceHeader
}.

(** ** The kernel *)

Inductive sysno : Type :=
| SYS_MMAP | SYS_MMAP2 | SYS_MUNMAP | SYS_MSYNC | SYS_MADVISE
| SYS_MPROTECT | SYS_MLOCK | SYS_MUNLOCK | SYS_MINCORE.

(** What reaches the kernel: [syscall.Syscall] and [syscall.Syscall6] with
    the call number and the argument words, and [syscall.Fstat]. *)
Inductive event : Type :=
| EvSyscall (nr : sysno) (args : list Z)
| EvFstat (fd : Z).

Definition trace : Type := list event.

(** The operating system as the code sees it.  Each answer may depend on
    everything that was called before. *)
Record OS : Type := mkOS {
  os_syscall : trace -> sysno -> list Z -> Z * Z;   (* r1, errno *)
  os_fstat : trace -> Z -> Z * Z;                   (* stat.Size, errno *)
  os_mincore_vec : trace -> nat -> Z;   (* bytes mincore stores, per page *)
  os_make : trace -> Z -> Z;            (* address of a fresh allocation *)
  os_pagesize : Z                       (* os.Getpagesize() *)
}.

(** ** A state monad with panics *)

Inductive outcome (A : Type) : Type :=
| Returned (x : A)
| Panicked (msg : string).
Arguments Returned {A} x.
Arguments Panicked {A} msg.

Definition M (S A : Type) : Type := S -> outcome A * S.

Definition ret {S A : Type} (x : A) : M S A := fun s => (Returned x, s).

Definition bind {S A B : Type} (c : M S A) (k : A -> M S B) : M S B :=
  fun s =>
    match c s with
    | (Returned x, s') => k x s'
    | (Panicked msg, s') => (Panicked msg, s')
    end.

Definition panic {S A : Type} (msg : string) : M S A :=
  fun s => (Panicked msg, s).

Definition get {S : Type} : M S S := fun s => (Returned s, s).
Definition put {S : Type} (s : S) : M S unit := fun _ => (Returned tt, s).

Declare Scope go_scope.
Delimit Scope go_scope with go.
Notation "x <- c ;; k" := (bind c (fun x => k))
  (at level 61, c at next level, right associativity) : go_scope.
Notation "' pat <- c ;; k" := (bind c (fun x => match x with pat => k end))
  (at level 61, pat pattern, c at next level, right associativity) : go_scope.
Notation "c ;;; k" := (bind c (fun _ => k))
  (at level 61, right associativity) : go_scope.
Local Open Scope go_scope.

(** The receiver of a method together with the log of kernel calls. *)
Record World : Type := mkWorld {
  self : MMap;
  log : trace
}.

(** A kernel-level computation run inside a method. *)
Definition lift {A : Type} (c : M trace A) : M World A :=
  fun s => let (o, t) := c (log s) in (o, mkWorld (self s) t).

Definition get_self : M World MMap := fun s => (Returned (self s), s).
Definition set_self (m : MMap) : M World unit :=
  fun s => (Returned tt, mkWorld m (log s)).

Section Gommap.

Variable A : arch.
Variable K : OS.

(** *** Primitives of package syscall, os and the runtime *)

Definition Syscall (nr : sysno) (a1 a2 a3 : Z) : M trace (Z * Z) :=
  fun t => (Returned (os_syscall K t nr [a1; a2; a3]),
            t ++ [EvSyscall nr [a1; a2; a3]]).

Definition Syscall6 (nr : sysno) (a1 a2 a3 a4 a5 a6 : Z) : M trace (Z * Z) :=
  fun t => (Returned (os_syscall K t nr [a1; a2; a3; a4; a5; a6]),
            t ++ [EvSyscall nr [a1; a2; a3; a4; a5; a6]]).

Definition Fstat (fd : Z) : M trace (Z * Z) :=
  fun t => (Returned (os_fstat K t fd), t ++ [EvFstat fd]).

Definition Getpagesize : Z := os_pagesize K.

(** A slice the package allocates and returns: header and contents. *)
Record Buffer : Type := mkBuffer {
  buf_hdr : SliceHeader;
  buf_bytes : list Z
}.

(** [make([]uint8, n)]: panics on a negative length, zeroed otherwise. *)
Definition make_bytes (n : Z) : M trace Buffer :=
  fun t =>
    if n <? 0 then (Panicked "makeslice: len out of range", t)
    else (Returned (mkBuffer (mkSlice (os_make K t n) n n)
                             (repeat 0 (Z.to_nat n))), t).

(** Integer division of [int]: panics on a zero divisor, truncates
    towards zero. *)
Definition int_div {S : Type} (x y : Z) : M S Z :=
  if y =? 0 then panic "integer divide by zero"
  else ret (to_int A (Z.quot x y)).

Definition int_add (x y : Z) : Z := to_int A (x + y).
Definition int_sub (x y : Z) : Z := to_int A (x - y).
Definition uintptr_add (x y : Z) : Z := to_uintptr A (x + y).

(** *** gommap.go: bounds validation *)

(** [func (mmap *MMap) checkSlice(region []uint8) os.Error] *)
Definition checkSlice (mmap : MMap) (region : SliceHeader) : option error :=
  let rh := region in
  let dh := internalData mmap in
  if (Data rh <? Data dh)
     || (uintptr_add (Data dh) (to_uintptr A (Len dh))
           <? uintptr_add (Data rh) (to_uintptr A (Len rh)))
  then Some containment_error
  else None.

(** *** gommap.go: creation *)

(** The part of [MapAt] after the length is known: the mapping call and
    the construction of the region. *)
Definition MapAt_map (addr fd offset length prot flags : Z)
  : M trace (option MMap * option error) :=
  '(addr, errno) <- Syscall6 SYS_MMAP addr
                      (to_uintptr A length) (to_uintptr A prot)
                      (to_uintptr A flags) (to_uintptr A fd)
                      (to_uintptr A offset) ;;
  if negb (errno =? 0) then ret (None, Some (Errno errno))
  else
    let dh_Data := addr in
    let dh_Len := to_int A length in
    let dh_Cap := dh_Len in
    let data := mkSlice dh_Data dh_Len dh_Cap in
    ret (Some (mkMMap data data), None).

(** [func MapAt(addr uintptr, fd int, offset, length int64, prot, flags uint)],
    which returns a pointer to the new region and an [os.Error]. *)
Definition MapAt (addr fd offset length prot flags : Z)
  : M trace (option MMap * option error) :=
  if length =? -1 then
    '(stat_Size, errno) <- Fstat fd ;;
    if negb (errno =? 0) then ret (None, Some (Errno errno))
    else MapAt_map addr fd offset stat_Size prot flags
  else MapAt_map addr fd offset length prot flags.

Definition Map (fd prot flags : Z) : M trace (option MMap * option error) :=
  MapAt 0 fd 0 (-1) prot flags.

Definition MapRegion (fd offset length prot flags : Z)
  : M trace (option MMap * option error) :=
  MapAt 0 fd offset length prot flags.

(** *** gommap.go: scoped operations *)

(** [if errno != 0 { return os.Errno(errno) }; return nil] *)
Definition errno_error (errno : Z) : option error :=
  if negb (errno =? 0) then Some (Errno errno) else None.

Definition UnsafeUnmapSlice (region : SliceHeader) : M World (option error) :=
  mmap <- get_self ;;
  match checkSlice mmap region with
  | Some err => ret (Some err)
  | None =>
    let rh := region in
    '(_, errno) <- lift (Syscall SYS_MUNMAP
                           (Data rh) (to_uintptr A (Len rh)) 0) ;;
    ret (errno_error errno)
  end.

Definition SyncSlice (region : SliceHeader) (flags : Z)
  : M World (option error) :=
  mmap <- get_self ;;
  match checkSlice mmap region with
  | Some err => ret (Some err)
  | None =>
    let rh := region in
    '(_, errno) <- lift (Syscall SYS_MSYNC
                           (Data rh) (to_uintptr A (Len rh))
                           (to_uintptr A flags)) ;;
    ret (errno_error errno)
  end.

Definition AdviseSlice (region : SliceHeader) (advice : Z)
  : M World (option error) :=
  mmap <- get_self ;;
  match checkSlice mmap region with
  | Some err => ret (Some err)
  | None =>
    let rh := region in
    '(_, errno) <- lift (Syscall SYS_MADVISE
                           (Data rh) (to_uintptr A (Len rh))
                           (to_uintptr A advice)) ;;
    ret (errno_error errno)
  end.

Definition ProtectSlice (region : SliceHeader) (prot : Z)
  : M World (option error) :=
  mmap <- get_self ;;
  match checkSlice mmap region with
  | Some err => ret (Some err)
  | None =>
    let rh := region in
    '(_, errno) <- lift (Syscall SYS_MPROTECT
                           (Data rh) (to_uintptr A (Len rh))
                           (to_uintptr A prot)) ;;
    ret (errno_error errno)
  end.

Definition LockSlice (region : SliceHeader) : M World (option error) :=
  mmap <- get_self ;;
  match checkSlice mmap region with
  | Some err => ret (Some err)
  | None =>
    let rh := region in
    '(_, errno) <- lift (Syscall SYS_MLOCK
                           (Data rh) (to_uintptr A (Len rh)) 0) ;;
    ret (errno_error errno)
  end.

Definition UnlockSlice (region : SliceHeader) : M World (option error) :=
  mmap <- get_self ;;
  match checkSlice mmap region with
  | Some err => ret (Some err)
  | None =>
    let rh := region in
    '(_, errno) <- lift (Syscall SYS_MUNLOCK
                           (Data rh) (to_uintptr A (Len rh)) 0) ;;
    ret (errno_error errno)
  end.

(** The bytes the kernel stores into the caller's vector during the call
    issued at log [t]; the header is not the kernel's to change. *)
Definition kernel_stores (t : trace) (b : Buffer) : Buffer :=
  mkBuffer (buf_hdr b)
           (map (os_mincore_vec K t) (seq 0 (List.length (buf_bytes b)))).

Definition InCoreSlice (region : SliceHeader)
  : M World (option Buffer * option error) :=
  mmap <- get_self ;;
  match checkSlice mmap region with
  | Some err => ret (None, Some err)
  | None =>
    let pageSize := Getpagesize in
    n <- int_div (int_sub (int_add (Len region) pageSize) 1) pageSize ;;
    result <- lift (make_bytes n) ;;
    let rh := region in
    let resulth := buf_hdr result in
    t <- lift get ;;
    '(_, errno) <- lift (Syscall SYS_MINCORE
                           (Data rh) (to_uintptr A (Len rh))
                           (Data resulth)) ;;
    if negb (errno =? 0) then ret (None, Some (Errno errno))
    else ret (Some (kernel_stores t result), None)
  end.

(** *** gommap.go: whole-region operations *)

Definition UnsafeUnmap : M World (option error) :=
  mmap <- get_self ;;
  err <- UnsafeUnmapSlice (slice_all (MData mmap)) ;;
  mmap <- get_self ;;
  set_self (mkMMap (MData mmap) nil_slice) ;;;
  mmap <- get_self ;;
  set_self (mkMMap nil_slice (internalData mmap)) ;;;
  ret err.

(** [Sync] has no result: what [SyncSlice] returns is dropped. *)
Definition Sync (flags : Z) : M World unit :=
  mmap <- get_self ;;
  SyncSlice (slice_all (MData mmap)) flags ;;;
  ret tt.

Definition Advise (advice : Z) : M World (option error) :=
  mmap <- get_self ;;
  AdviseSlice (slice_all (MData mmap)) advice.

Definition Protect (prot : Z) : M World (option error) :=
  mmap <- get_self ;;
  ProtectSlice (slice_all (MData mmap)) prot.

Definition Lock : M World (option error) :=
  mmap <- get_self ;;
  LockSlice (slice_all (MData mmap)).

Definition Unlock : M World (option error) :=
  mmap <- get_self ;;
  UnlockSlice (slice_all (MData mmap)).

Definition InCore : M World (option Buffer * option error) :=
  mmap <- get_self ;;
  InCoreSlice (slice_all (MData mmap)).

End Gommap.

(** ** The earlier API: [type MMap []uint8]

    The region is the slice itself; there is no private copy of the bounds
    and no scoped variant, each method acts on its receiver's header. *)
Module SliceAPI.
Section Defs.

Variable A : arch.
Variable K : OS.

Definition MapAt_map (addr fd offset length prot flags : Z)
  : M trace (SliceHeader * option error) :=
  '(addr, errno) <- Syscall6 K SYS_MMAP addr
                      (to_uintptr A length) (to_uintptr A prot)
                      (to_uintptr A flags) (to_uintptr A fd)
                      (to_uintptr A offset) ;;
  if negb (errno =? 0) then ret (nil_slice, Some (Errno errno))
  else
    let dh_Data := addr in
    let dh_Len := to_int A length in
    let dh_Cap := dh_Len in
    ret (mkSlice dh_Data dh_Len dh_Cap, None).

Definition MapAt (addr fd offset length prot flags : Z)
  : M trace (SliceHeader * option error) :=
  if length =? -1 then
    '(stat_Size, errno) <- Fstat K fd ;;
    if negb (errno =? 0) then ret (nil_slice, Some (Errno errno))
    else MapAt_map addr fd offset stat_Size prot flags
  else MapAt_map addr fd offset length prot flags.

Definition InCore (mmap : SliceHeader)
  : M trace (option Buffer * option error) :=
  let pageSize := Getpagesize K in
  n <- int_div A (int_sub A (int_add A (Len mmap) pageSize) 1) pageSize ;;
  result <- make_bytes K n ;;
  let rh := mmap in
  let resulth := buf_hdr result in
  t <- get ;;
  '(_, errno) <- Syscall K SYS_MINCORE
                   (Data rh) (to_uintptr A (Len rh)) (Data resulth) ;;
  if negb (errno =? 0) then ret (None, Some (Errno errno))
  else ret (Some (kernel_stores K t result), None).

Definition Map (fd prot flags : Z) : M trace (SliceHeader * option error) :=
  MapAt 0 fd 0 (-1) prot flags.

Definition MapRegion (fd offset length prot flags : Z)
  : M trace (SliceHeader * option error) :=
  MapAt 0 fd offset length prot flags.

(** The methods have a value receiver: the slice to act on. *)
Definition UnsafeUnmap (mmap : SliceHeader) : M trace (option error) :=
  let rh := mmap in
  '(_, errno) <- Syscall K SYS_MUNMAP (Data rh) (to_uintptr A (Len rh)) 0 ;;
  ret (errno_error errno).

Definition Sync (mmap : SliceHeader) (flags : Z) : M trace (option error) :=
  let rh := mmap in
  '(_, errno) <- Syscall K SYS_MSYNC (Data rh) (to_uintptr A (Len rh))
                   (to_uintptr A flags) ;;
  ret (errno_error errno).

Definition Advise (mmap : SliceHeader) (advice : Z) : M trace (option error) :=
  let rh := mmap in
  '(_, errno) <- Syscall K SYS_MADVISE (Data rh) (to_uintptr A (Len rh))
                   (to_uintptr A advice) ;;
  ret (errno_error errno).

Definition Protect (mmap : SliceHeader) (prot : Z) : M trace (option error) :=
  let rh := mmap in
  '(_, errno) <- Syscall K SYS_MPROTECT (Data rh) (to_uintptr A (Len rh))
                   (to_uintptr A prot) ;;
  ret (errno_error errno).

Definition Lock (mmap : SliceHeader) : M trace (option error) :=
  let rh := mmap in
  '(_, errno) <- Syscall K SYS_MLOCK (Data rh) (to_uintptr A (Len rh)) 0 ;;
  ret (errno_error errno).

Definition Unlock (mmap : SliceHeader) : M trace (option error) :=
  let rh := mmap in
  '(_, errno) <- Syscall K SYS_MUNLOCK (Data rh) (to_uintptr A (Len rh)) 0 ;;
  ret (errno_error errno).

End Defs.
End SliceAPI.

(** ** The per-architecture mapping call *)

(** mmap_linux_amd64.go: the kernel takes the offset in bytes. *)
Module linux_amd64.

Definition mmap_syscall (K : OS) (addr length prot flags fd offset : Z)
  : M trace (Z * Z) :=
  '(addr, errno) <- Syscall6 K SYS_MMAP addr length prot flags fd
                      (to_uintptr Arch64 offset) ;;
  ret (addr, errno).

End linux_amd64.

(** The adapter of the architectures whose call is [SYS_MMAP2]: the kernel
    takes the offset in pages of 4096 bytes. *)
Module linux_mmap2.

Definition page_of (A : arch) (offset : Z) : Z :=
  to_uintptr A (Z.quot offset 4096).

Definition mmap_syscall (A : arch) (K : OS)
  (addr length prot flags fd offset : Z) : M trace (Z * Z) :=
  let page := page_of A offset in
  if negb (offset =? to_int64 (to_int64 page * 4096)) then ret (0, EINVAL)
  else
    '(addr, errno) <- Syscall6 K SYS_MMAP2 addr length prot flags fd page ;;
    ret (addr, errno).

End linux_mmap2.

(** ** Kernels to run the code on *)

(** Every call succeeds: a mapping lands at 65536, a file has 16 bytes,
    every page is resident, pages have 4096 bytes. *)
Definition os_ok : OS :=
  mkOS (fun _ nr _ =>
          match nr with
          | SYS_MMAP | SYS_MMAP2 => (65536, 0)
          | _ => (0, 0)
          end)
       (fun _ _ => (16, 0))
       (fun _ _ => 1)
       (fun _ _ => 131072)
       4096.

(** The descriptor cannot be examined: [Fstat] fails with EBADF. *)
Definition os_fstat_fails : OS :=
  mkOS (os_syscall os_ok) (fun _ _ => (0, 9))
       (os_mincore_vec os_ok) (os_make os_ok) 4096.

(** The kernel rejects every flush with EINVAL. *)
Definition os_msync_fails : OS :=
  mkOS (fun t nr args =>
          match nr with
          | SYS_MSYNC => (0, EINVAL)
          | _ => os_syscall os_ok t nr args
          end)
       (os_fstat os_ok) (os_mincore_vec os_ok) (os_make os_ok) 4096.

(** The 16 byte file of the tests, mapped at 65536. *)
Definition region16 : MMap :=
  mkMMap (mkSlice 65536 16 16) (mkSlice 65536 16 16).

Definition world16 : World := mkWorld region16 [].

(** A slice of 5 bytes that is not part of the mapping, as
    [make([]byte, 5)] in the tests. *)
Definition badRegion : SliceHeader := mkSlice 131072 5 5.

(** ** Vocabulary of the statements *)

(** A region whose two fields are nil, as [UnsafeUnmap] leaves it. *)
Definition retired : MMap := mkMMap nil_slice nil_slice.

(** The method [c], run in [s], issues exactly the call [nr] on [args],
    returns the kernel's verdict on it and leaves the receiver alone. *)
Definition forwards (K : OS) (c : M World (option error)) (s : World)
  (nr : sysno) (args : list Z) : Prop :=
  c s = (Returned (errno_error (snd (os_syscall K (log s) nr args))),
         mkWorld (self s) (log s ++ [EvSyscall nr args])).

(** The method [c], run in [s], returns the error [e] at once: no call is
    issued and nothing changes. *)
Definition rejects {R : Type} (c : M World R) (s : World) (r : R) : Prop :=
  c s = (Returned r, s).

(** The method [c] never assigns to a field of its receiver. *)
Definition keeps_self {R : Type} (c : M World R) : Prop :=
  forall s : World, self (snd (c s)) = self s.

(** The length [MapAt] maps: the caller's, or the size of the file when
    the caller passes -1. *)
Definition effective_length (K : OS) (t : trace) (fd length : Z) : Z :=
  if length =? -1 then fst (os_fstat K t fd) else length.

(** What [InCoreSlice] and [InCore] return once the kernel has answered
    [errno] to the call issued at log [t] with a vector of [n] bytes. *)
Definition incore_result (K : OS) (t : trace) (n errno : Z)
  : option Buffer * option error :=
  if negb (errno =? 0) then (None, Some (Errno errno))
  else (Some (kernel_stores K t
                (mkBuffer (mkSlice (os_make K t n) n n)
                          (repeat 0 (Z.to_nat n)))), None).

(** Every scoped operation, run in [s] on the region [r], returns the
    containment error at once. *)
Definition scoped_rejected (a : arch) (K : OS) (s : World) (r : SliceHeader)
  : Prop :=
  forall x : Z,
    rejects (UnsafeUnmapSlice a K r) s (Some containment_error) /\
    rejects (SyncSlice a K r x) s (Some containment_error) /\
    rejects (AdviseSlice a K r x) s (Some containment_error) /\
    rejects (ProtectSlice a K r x) s (Some containment_error) /\
    rejects (LockSlice a K r) s (Some containment_error) /\
    rejects (UnlockSlice a K r) s (Some containment_error) /\
    rejects (InCoreSlice a K r) s (None, Some containment_error).

(** The two ways a scoped operation with an error result can end: with the
    containment error and nothing done, or with its one call issued. *)
Definition scoped_outcome (K : OS) (c : M World (option error)) (s : World)
  (nr : sysno) (args : list Z) : Prop :=
  rejects c s (Some containment_error) \/ forwards K c s nr args.

(** The region was accepted and the kernel answered 0 to the call [nr] on
    it. *)
Definition accepted_and_ok (a : arch) (K : OS) (s : World) (r : SliceHeader)
  (nr : sysno) (third : Z) : Prop :=
  checkSlice a (self s) r = None /\
  snd (os_syscall K (log s) nr [Data r; to_uintptr a (Len r); third]) = 0.

(** The arguments of the mapping call of [MapAt]. *)
Definition mmap_args (a : arch) (addr fd offset length prot flags : Z)
  : list Z :=
  [addr; to_uintptr a length; to_uintptr a prot; to_uintptr a flags;
   to_uintptr a fd; to_uintptr a offset].

(** A region of the tests whose public [Data] was replaced by a slice
    that is not part of the mapping. *)
Definition region_reassigned : MMap := mkMMap badRegion (mkSlice 65536 16 16).

(** The method [c] of the earlier API, run at log [t], issues exactly the
    call [nr] on [args] and returns the kernel's verdict on it. *)
Definition issues (K : OS) (c : M trace (option error)) (t : trace)
  (nr : sysno) (args : list Z) : Prop :=
  c t = (Returned (errno_error (snd (os_syscall K t nr args))),
         t ++ [EvSyscall nr args]).

(** The log at which [MapAt] issues its mapping call. *)
Definition log_before_mmap (t : trace) (fd length : Z) : trace :=
  if length =? -1 then t ++ [EvFstat fd] else t.

(** The address of [d[lo:hi]]: [lo] bytes after the base, or the base
    itself when [lo] is the capacity. *)
Definition subslice_start (d : SliceHeader) (lo : Z) : Z :=
  if Cap d - lo =? 0 then Data d else Data d + lo.

(** * Properties *)

(** ** Machine integers *)

Lemma pow_ptr_bits_pos (a : arch) : 0 < 2 ^ ptr_bits a.
Proof. destruct a; simpl; lia. Qed.

Lemma pow_ptr_bits_half (a : arch) :
  2 ^ ptr_bits a = 2 * 2 ^ (ptr_bits a - 1).
Proof. destruct a; simpl; reflexivity. Qed.

Lemma to_uintptr_small (a : arch) (x : Z) :
  0 <= x < 2 ^ ptr_bits a -> to_uintptr a x = x.
Proof. intros H. unfold to_uintptr, wrapU. now apply Z.mod_small. Qed.

Lemma to_uintptr_range (a : arch) (x : Z) : in_uintptr a (to_uintptr a x).
Proof.
  unfold in_uintptr, to_uintptr, wrapU.
  apply Z.mod_pos_bound, pow_ptr_bits_pos.
Qed.

Lemma to_int_small (a : arch) (x : Z) : in_int a x -> to_int a x = x.
Proof.
  unfold in_int, min_int, max_int, to_int, wrapS. intros H.
  pose proof (pow_ptr_bits_half a) as Hh.
  rewrite Z.mod_small by lia. lia.
Qed.

Lemma to_int_range (a : arch) (x : Z) : in_int a (to_int a x).
Proof.
  unfold in_int, min_int, max_int, to_int, wrapS.
  pose proof (pow_ptr_bits_half a) as Hh.
  pose proof (Z.mod_pos_bound (x + 2 ^ (ptr_bits a - 1)) (2 ^ ptr_bits a)
                (pow_ptr_bits_pos a)).
  lia.
Qed.

(** The signed reading differs from the integer by a multiple of the
    modulus. *)
Lemma wrapS_congr (w x : Z) :
  0 < 2 ^ w -> exists k, wrapS w x = x + k * 2 ^ w.
Proof.
  intros Hw. unfold wrapS.
  exists (- ((x + 2 ^ (w - 1)) / 2 ^ w)).
  pose proof (Z.div_mod (x + 2 ^ (w - 1)) (2 ^ w)) as Hd.
  nia.
Qed.

Lemma to_int_congr (a : arch) (x : Z) :
  exists k, to_int a x = x + k * 2 ^ ptr_bits a.
Proof. apply wrapS_congr, pow_ptr_bits_pos. Qed.

Lemma wf_slice_addressable (a : arch) (s : SliceHeader) :
  wf_slice a s -> addressable a s.
Proof. unfold wf_slice, addressable. lia. Qed.

Lemma addressable_len (a : arch) (s : SliceHeader) :
  addressable a s -> to_uintptr a (Len s) = Len s.
Proof.
  intros (Hd & Hl & Hc). apply to_uintptr_small. lia.
Qed.

Lemma addressable_end (a : arch) (s : SliceHeader) :
  addressable a s ->
  uintptr_add a (Data s) (to_uintptr a (Len s)) = Data s + Len s.
Proof.
  intros Hwf. rewrite (addressable_len a s Hwf).
  destruct Hwf as (Hd & Hl & Hc).
  unfold uintptr_add. apply to_uintptr_small. lia.
Qed.

(** ** Bounds validation *)

(** The only error of the validator is the containment error. *)
Lemma checkSlice_cases (a : arch) (m : MMap) (r : SliceHeader) :
  checkSlice a m r = None \/ checkSlice a m r = Some containment_error.
Proof.
  unfold checkSlice.
  destruct (_ || _); auto.
Qed.

(** C1: for headers whose bytes are memory, the validator accepts a
    sub-region exactly when it starts at or after the base address of the
    region and ends at or before the region's end. *)
Theorem checkSlice_accepts_iff (a : arch) (m : MMap) (r : SliceHeader) :
  addressable a r ->
  addressable a (internalData m) ->
  checkSlice a m r = None <->
  (Data r >= Data (internalData m) /\
   Data r + Len r <= Data (internalData m) + Len (internalData m)).
Proof.
  intros Hr Hd. unfold checkSlice.
  rewrite (addressable_end a r Hr), (addressable_end a _ Hd).
  destruct (Data r <? Data (internalData m)) eqn:E1;
    destruct (Data (internalData m) + Len (internalData m) <? Data r + Len r)
      eqn:E2; simpl;
    try apply Z.ltb_lt in E1; try apply Z.ltb_ge in E1;
    try apply Z.ltb_lt in E2; try apply Z.ltb_ge in E2;
    split; intros H; try discriminate; try reflexivity; lia.
Qed.

Lemma checkSlice_accepts_iff_witness :
  addressable Arch64 (mkSlice 65543 3 9) /\
  addressable Arch64 (internalData region16) /\
  (checkSlice Arch64 region16 (mkSlice 65543 3 9) = None <->
   (65543 >= 65536 /\ 65543 + 3 <= 65536 + 16)).
Proof.
  assert (H1 : addressable Arch64 (mkSlice 65543 3 9))
    by (unfold addressable; simpl; lia).
  assert (H2 : addressable Arch64 (internalData region16))
    by (unfold addressable; simpl; lia).
  split; [exact H1 | split; [exact H2 |]].
  exact (checkSlice_accepts_iff Arch64 region16 (mkSlice 65543 3 9) H1 H2).
Defined.

(** Both ends are compared modulo the word: a header whose end lies past
    the top of the address space is judged by its wrapped end. *)
Example checkSlice_wrapped_end :
  checkSlice Arch32 (mkMMap nil_slice (mkSlice 4294901760 4096 4096))
             (mkSlice 4294963200 8192 8192) = None.
Proof. reflexivity. Qed.

(** ** Running the methods *)

Ltac unfold_ops :=
  unfold UnsafeUnmap, Sync, Advise, Protect, Lock, Unlock, InCore,
    UnsafeUnmapSlice, SyncSlice, AdviseSlice, ProtectSlice, LockSlice,
    UnlockSlice, InCoreSlice.

Ltac unfold_monad :=
  unfold bind, ret, panic, get, put, get_self, set_self, lift, Syscall,
    Syscall6, Fstat; simpl.

Ltac break_match :=
  repeat match goal with
         | |- context [match ?x with _ => _ end] => destruct x eqn:?; simpl
         end.

Lemma slice_all_id (s : SliceHeader) : slice_all s = s.
Proof. destruct s; reflexivity. Qed.

Lemma World_eta (s : World) : mkWorld (self s) (log s) = s.
Proof. destruct s; reflexivity. Qed.

Section Run.

Variable a : arch.
Variable K : OS.

Lemma UnsafeUnmapSlice_rejected (s : World) (r : SliceHeader) (e : error) :
  checkSlice a (self s) r = Some e ->
  rejects (UnsafeUnmapSlice a K r) s (Some e).
Proof.
  intros H. unfold rejects. unfold_ops. unfold_monad. now rewrite H.
Qed.

Lemma SyncSlice_rejected (s : World) (r : SliceHeader) (f : Z) (e : error) :
  checkSlice a (self s) r = Some e ->
  rejects (SyncSlice a K r f) s (Some e).
Proof.
  intros H. unfold rejects. unfold_ops. unfold_monad. now rewrite H.
Qed.

Lemma AdviseSlice_rejected (s : World) (r : SliceHeader) (f : Z) (e : error) :
  checkSlice a (self s) r = Some e ->
  rejects (AdviseSlice a K r f) s (Some e).
Proof.
  intros H. unfold rejects. unfold_ops. unfold_monad. now rewrite H.
Qed.

Lemma ProtectSlice_rejected (s : World) (r : SliceHeader) (f : Z) (e : error) :
  checkSlice a (self s) r = Some e ->
  rejects (ProtectSlice a K r f) s (Some e).
Proof.
  intros H. unfold rejects. unfold_ops. unfold_monad. now rewrite H.
Qed.

Lemma LockSlice_rejected (s : World) (r : SliceHeader) (e : error) :
  checkSlice a (self s) r = Some e ->
  rejects (LockSlice a K r) s (Some e).
Proof.
  intros H. unfold rejects. unfold_ops. unfold_monad. now rewrite H.
Qed.

Lemma UnlockSlice_rejected (s : World) (r : SliceHeader) (e : error) :
  checkSlice a (self s) r = Some e ->
  rejects (UnlockSlice a K r) s (Some e).
Proof.
  intros H. unfold rejects. unfold_ops. unfold_monad. now rewrite H.
Qed.

Lemma InCoreSlice_rejected (s : World) (r : SliceHeader) (e : error) :
  checkSlice a (self s) r = Some e ->
  rejects (InCoreSlice a K r) s (None, Some e).
Proof.
  intros H. unfold rejects. unfold_ops. unfold_monad. now rewrite H.
Qed.

Lemma UnsafeUnmapSlice_accepted (s : World) (r : SliceHeader) :
  checkSlice a (self s) r = None ->
  forwards K (UnsafeUnmapSlice a K r) s
           SYS_MUNMAP [Data r; to_uintptr a (Len r); 0].
Proof.
  intros H. unfold forwards. unfold_ops. unfold_monad. rewrite H.
  now destruct (os_syscall K (log s) SYS_MUNMAP _).
Qed.

Lemma SyncSlice_accepted (s : World) (r : SliceHeader) (f : Z) :
  checkSlice a (self s) r = None ->
  forwards K (SyncSlice a K r f) s
           SYS_MSYNC [Data r; to_uintptr a (Len r); to_uintptr a f].
Proof.
  intros H. unfold forwards. unfold_ops. unfold_monad. rewrite H.
  now destruct (os_syscall K (log s) SYS_MSYNC _).
Qed.

Lemma AdviseSlice_accepted (s : World) (r : SliceHeader) (f : Z) :
  checkSlice a (self s) r = None ->
  forwards K (AdviseSlice a K r f) s
           SYS_MADVISE [Data r; to_uintptr a (Len r); to_uintptr a f].
Proof.
  intros H. unfold forwards. unfold_ops. unfold_monad. rewrite H.
  now destruct (os_syscall K (log s) SYS_MADVISE _).
Qed.

Lemma ProtectSlice_accepted (s : World) (r : SliceHeader) (f : Z) :
  checkSlice a (self s) r = None ->
  forwards K (ProtectSlice a K r f) s
           SYS_MPROTECT [Data r; to_uintptr a (Len r); to_uintptr a f].
Proof.
  intros H. unfold forwards. unfold_ops. unfold_monad. rewrite H.
  now destruct (os_syscall K (log s) SYS_MPROTECT _).
Qed.

Lemma LockSlice_accepted (s : World) (r : SliceHeader) :
  checkSlice a (self s) r = None ->
  forwards K (LockSlice a K r) s
           SYS_MLOCK [Data r; to_uintptr a (Len r); 0].
Proof.
  intros H. unfold forwards. unfold_ops. unfold_monad. rewrite H.
  now destruct (os_syscall K (log s) SYS_MLOCK _).
Qed.

Lemma UnlockSlice_accepted (s : World) (r : SliceHeader) :
  checkSlice a (self s) r = None ->
  forwards K (UnlockSlice a K r) s
           SYS_MUNLOCK [Data r; to_uintptr a (Len r); 0].
Proof.
  intros H. unfold forwards. unfold_ops. unfold_monad. rewrite H.
  now destruct (os_syscall K (log s) SYS_MUNLOCK _).
Qed.

End Run.

(** ** Scoped operations on a region outside the mapping *)

Lemma checkSlice_fails (a : arch) (m : MMap) (r : SliceHeader) :
  checkSlice a m r <> None -> checkSlice a m r = Some containment_error.
Proof.
  intros H. destruct (checkSlice_cases a m r) as [E | E]; [contradiction | exact E].
Qed.

(** C2: each of the seven scoped operations runs the same validation of
    its region against the receiver, and when the validation fails it
    returns the containment error at once: the log of kernel calls and the
    receiver are as before. *)
Theorem scoped_operations_reject
  (a : arch) (K : OS) (s : World) (r : SliceHeader) (flags advice prot : Z) :
  checkSlice a (self s) r <> None ->
  rejects (UnsafeUnmapSlice a K r) s (Some containment_error) /\
  rejects (SyncSlice a K r flags) s (Some containment_error) /\
  rejects (AdviseSlice a K r advice) s (Some containment_error) /\
  rejects (ProtectSlice a K r prot) s (Some containment_error) /\
  rejects (LockSlice a K r) s (Some containment_error) /\
  rejects (UnlockSlice a K r) s (Some containment_error) /\
  rejects (InCoreSlice a K r) s (None, Some containment_error).
Proof.
  intros H. apply checkSlice_fails in H.
  repeat split.
  - now apply UnsafeUnmapSlice_rejected.
  - now apply SyncSlice_rejected.
  - now apply AdviseSlice_rejected.
  - now apply ProtectSlice_rejected.
  - now apply LockSlice_rejected.
  - now apply UnlockSlice_rejected.
  - now apply InCoreSlice_rejected.
Qed.

Lemma scoped_operations_reject_witness :
  checkSlice Arch64 (self world16) badRegion <> None /\
  rejects (UnsafeUnmapSlice Arch64 os_ok badRegion) world16
          (Some containment_error) /\
  rejects (SyncSlice Arch64 os_ok badRegion 4) world16
          (Some containment_error) /\
  rejects (AdviseSlice Arch64 os_ok badRegion 0) world16
          (Some containment_error) /\
  rejects (ProtectSlice Arch64 os_ok badRegion 1) world16
          (Some containment_error) /\
  rejects (LockSlice Arch64 os_ok badRegion) world16
          (Some containment_error) /\
  rejects (UnlockSlice Arch64 os_ok badRegion) world16
          (Some containment_error) /\
  rejects (InCoreSlice Arch64 os_ok badRegion) world16
          (None, Some containment_error).
Proof.
  assert (H : checkSlice Arch64 (self world16) badRegion <> None)
    by (vm_compute; discriminate).
  split; [exact H |].
  exact (scoped_operations_reject Arch64 os_ok world16 badRegion 4 0 1 H).
Defined.

(** ** The receiver's fields *)

Section Frame.

Variable a : arch.
Variable K : OS.

Lemma keeps_self_bind {R Q : Type} (c : M World R) (k : R -> M World Q) :
  keeps_self c -> (forall x, keeps_self (k x)) -> keeps_self (bind c k).
Proof.
  intros Hc Hk s. unfold bind. specialize (Hc s).
  destruct (c s) as [[x | msg] s']; simpl in *.
  - now rewrite Hk.
  - exact Hc.
Qed.

Lemma keeps_self_ret {R : Type} (x : R) : keeps_self (@ret World R x).
Proof. intros s. reflexivity. Qed.

Lemma keeps_self_get_self : keeps_self get_self.
Proof. intros s. reflexivity. Qed.

Ltac frame := intros s; unfold_ops; unfold_monad; break_match; reflexivity.

Lemma UnsafeUnmapSlice_keeps_self (r : SliceHeader) :
  keeps_self (UnsafeUnmapSlice a K r).
Proof. frame. Qed.

Lemma SyncSlice_keeps_self (r : SliceHeader) (f : Z) :
  keeps_self (SyncSlice a K r f).
Proof. frame. Qed.

Lemma AdviseSlice_keeps_self (r : SliceHeader) (f : Z) :
  keeps_self (AdviseSlice a K r f).
Proof. frame. Qed.

Lemma ProtectSlice_keeps_self (r : SliceHeader) (f : Z) :
  keeps_self (ProtectSlice a K r f).
Proof. frame. Qed.

Lemma LockSlice_keeps_self (r : SliceHeader) : keeps_self (LockSlice a K r).
Proof. frame. Qed.

Lemma UnlockSlice_keeps_self (r : SliceHeader) :
  keeps_self (UnlockSlice a K r).
Proof. frame. Qed.

Lemma InCoreSlice_keeps_self (r : SliceHeader) :
  keeps_self (InCoreSlice a K r).
Proof.
  intros s. unfold_ops. unfold int_div, make_bytes. unfold_monad.
  destruct (checkSlice a (self s) r); [reflexivity |].
  destruct (Getpagesize K =? 0); [reflexivity |]. simpl.
  destruct (_ <? 0); [reflexivity |]. simpl.
  destruct (os_syscall K (log s) SYS_MINCORE _) as [r1 errno]. simpl.
  destruct (negb (errno =? 0)); reflexivity.
Qed.

Lemma Sync_keeps_self (f : Z) : keeps_self (Sync a K f).
Proof.
  unfold Sync. apply keeps_self_bind; [apply keeps_self_get_self |].
  intros m. apply keeps_self_bind; [apply SyncSlice_keeps_self |].
  intros _. apply keeps_self_ret.
Qed.

Lemma Advise_keeps_self (f : Z) : keeps_self (Advise a K f).
Proof. intros s. apply (AdviseSlice_keeps_self _ f s). Qed.

Lemma Protect_keeps_self (f : Z) : keeps_self (Protect a K f).
Proof. intros s. apply (ProtectSlice_keeps_self _ f s). Qed.

Lemma Lock_keeps_self : keeps_self (Lock a K).
Proof. intros s. apply (LockSlice_keeps_self _ s). Qed.

Lemma Unlock_keeps_self : keeps_self (Unlock a K).
Proof. intros s. apply (UnlockSlice_keeps_self _ s). Qed.

Lemma InCore_keeps_self : keeps_self (InCore a K).
Proof. intros s. apply (InCoreSlice_keeps_self _ s). Qed.

(** Whatever the unmapping call answers, [UnsafeUnmap] leaves both fields
    nil. *)
Lemma UnsafeUnmapSlice_returns (r : SliceHeader) (s : World) :
  exists e t, UnsafeUnmapSlice a K r s = (Returned e, mkWorld (self s) t).
Proof.
  destruct (checkSlice a (self s) r) as [e |] eqn:E.
  - exists (Some e), (log s).
    rewrite World_eta. now apply UnsafeUnmapSlice_rejected.
  - eexists; eexists. now apply UnsafeUnmapSlice_accepted.
Qed.

Lemma UnsafeUnmap_run (s : World) :
  UnsafeUnmap a K s =
  (fst (UnsafeUnmapSlice a K (slice_all (MData (self s))) s),
   mkWorld retired
           (log (snd (UnsafeUnmapSlice a K (slice_all (MData (self s))) s)))).
Proof.
  unfold UnsafeUnmap. unfold bind at 1. unfold get_self at 1. unfold bind at 1.
  destruct (UnsafeUnmapSlice_returns (slice_all (MData (self s))) s)
    as (e & t & E).
  rewrite E. reflexivity.
Qed.

Lemma UnsafeUnmap_retires (s : World) :
  self (snd (UnsafeUnmap a K s)) = retired.
Proof. rewrite UnsafeUnmap_run. reflexivity. Qed.

End Frame.

(** ** Slices of the region *)

Lemma checkSlice_inside (a : arch) (m : MMap) (r : SliceHeader) :
  addressable a r ->
  addressable a (internalData m) ->
  Data (internalData m) <= Data r ->
  Data r + Len r <= Data (internalData m) + Len (internalData m) ->
  checkSlice a m r = None.
Proof.
  intros Hr Hd H1 H2. unfold checkSlice.
  rewrite (addressable_end a r Hr), (addressable_end a _ Hd).
  replace (Data r <? Data (internalData m)) with false
    by (symmetry; apply Z.ltb_ge; lia).
  replace (_ <? _) with false by (symmetry; apply Z.ltb_ge; lia).
  reflexivity.
Qed.

(** [d[lo:hi]] within the length of a header that describes memory. *)
Lemma slice_range_inside (a : arch) (d r : SliceHeader) (lo hi : Z) :
  wf_slice a d ->
  0 <= lo <= hi ->
  hi <= Len d ->
  slice_range a d lo hi = Some r ->
  r = mkSlice (subslice_start d lo) (hi - lo) (Cap d - lo) /\ wf_slice a r.
Proof.
  intros (Hd & Hl & Hc) Hlo Hhi. unfold slice_range, subslice_start.
  replace (0 <=? lo) with true by (symmetry; apply Z.leb_le; lia).
  replace (lo <=? hi) with true by (symmetry; apply Z.leb_le; lia).
  replace (hi <=? Cap d) with true by (symmetry; apply Z.leb_le; lia).
  simpl. rewrite to_uintptr_small by lia.
  intros E. injection E as <-. split; [reflexivity |].
  unfold wf_slice; simpl.
  destruct (Cap d - lo =? 0) eqn:E0; lia.
Qed.

(** The start of a slice within the length lies between the base and the
    place [lo] bytes after it, and the slice ends within the first [hi]
    bytes. *)
Lemma subslice_start_bounds (d : SliceHeader) (lo hi : Z) :
  0 <= lo <= hi ->
  hi <= Cap d ->
  Data d <= subslice_start d lo <= Data d + lo /\
  subslice_start d lo + (hi - lo) <= Data d + hi.
Proof.
  intros Hlo Hhi. unfold subslice_start.
  destruct (Cap d - lo =? 0) eqn:E0; [apply Z.eqb_eq in E0 |]; lia.
Qed.

Lemma checkSlice_subslice (a : arch) (m : MMap) (r : SliceHeader) (lo hi : Z) :
  wf_slice a (internalData m) ->
  0 <= lo <= hi ->
  hi <= Len (internalData m) ->
  slice_range a (internalData m) lo hi = Some r ->
  checkSlice a m r = None.
Proof.
  intros Hd Hlo Hhi E.
  destruct (slice_range_inside a _ r lo hi Hd Hlo Hhi E) as (-> & Hr).
  assert (Hcap : hi <= Cap (internalData m)) by (destruct Hd; lia).
  destruct (subslice_start_bounds (internalData m) lo hi Hlo Hcap).
  apply checkSlice_inside; auto using wf_slice_addressable; simpl; lia.
Qed.

Lemma checkSlice_accepted_bounds (a : arch) (m : MMap) (r : SliceHeader) :
  addressable a r ->
  addressable a (internalData m) ->
  checkSlice a m r = None ->
  Data (internalData m) <= Data r /\
  Data r + Len r <= Data (internalData m) + Len (internalData m).
Proof.
  intros Hr Hd. unfold checkSlice.
  rewrite (addressable_end a r Hr), (addressable_end a _ Hd).
  destruct (Data r <? Data (internalData m)) eqn:E1; [discriminate |].
  destruct (Data (internalData m) + Len (internalData m) <? Data r + Len r)
    eqn:E2; [discriminate |].
  apply Z.ltb_ge in E1. apply Z.ltb_ge in E2. intros _. lia.
Qed.

(** C7: unmapping a slice [r = d[lo:hi]] of the region hands the bytes of
    [r] to the kernel, [hi - lo] of them from the address of [r] (which is
    [lo] bytes after the base, or the base when [lo] is the capacity), and
    leaves both fields of the receiver as they were, while [UnsafeUnmap]
    leaves both fields nil; the scoped form never assigns to the receiver,
    whatever its argument. *)
Theorem UnsafeUnmapSlice_leaves_fields
  (a : arch) (K : OS) (s : World) (lo hi : Z) (r : SliceHeader) :
  wf_slice a (internalData (self s)) ->
  0 <= lo <= hi ->
  hi <= Len (internalData (self s)) ->
  slice_range a (internalData (self s)) lo hi = Some r ->
  Data r = subslice_start (internalData (self s)) lo /\
  Len r = hi - lo /\
  forwards K (UnsafeUnmapSlice a K r) s SYS_MUNMAP [Data r; hi - lo; 0] /\
  self (snd (UnsafeUnmap a K s)) = retired /\
  (forall r' : SliceHeader, keeps_self (UnsafeUnmapSlice a K r')).
Proof.
  intros Hd Hlo Hhi E.
  pose proof (checkSlice_subslice a (self s) r lo hi Hd Hlo Hhi E) as Hc.
  destruct (slice_range_inside a _ r lo hi Hd Hlo Hhi E) as (Hr & Hwf).
  assert (HL : Len r = hi - lo) by (rewrite Hr; reflexivity).
  split; [rewrite Hr; reflexivity |].
  split; [exact HL |].
  split; [| split].
  - pose proof (UnsafeUnmapSlice_accepted a K s r Hc) as Hf.
    rewrite (addressable_len a r (wf_slice_addressable a r Hwf)) in Hf.
    now rewrite HL in Hf.
  - apply UnsafeUnmap_retires.
  - intros r'. apply UnsafeUnmapSlice_keeps_self.
Qed.

Lemma UnsafeUnmapSlice_leaves_fields_witness :
  UnsafeUnmapSlice Arch64 os_ok (mkSlice 65543 3 9) world16 =
    (Returned None,
     mkWorld region16 [EvSyscall SYS_MUNMAP [65543; 3; 0]]) /\
  self (snd (UnsafeUnmap Arch64 os_ok world16)) = retired.
Proof.
  assert (Hd : wf_slice Arch64 (internalData (self world16)))
    by (unfold wf_slice; simpl; lia).
  assert (Hlo : 0 <= 7 <= 10) by lia.
  assert (Hhi : 10 <= Len (internalData (self world16))) by (simpl; lia).
  assert (E : slice_range Arch64 (internalData (self world16)) 7 10
              = Some (mkSlice 65543 3 9)) by reflexivity.
  destruct (UnsafeUnmapSlice_leaves_fields Arch64 os_ok world16 7 10
              (mkSlice 65543 3 9) Hd Hlo Hhi E) as (_ & _ & Hf & Hu & _).
  split; [exact Hf | exact Hu].
Defined.

(** At the very end of the region the slice keeps the base address:
    [Data[16:16]] of the 16 byte region is the empty slice at 65536, and
    unmapping it passes that address. *)
Example UnsafeUnmapSlice_at_capacity :
  slice_range Arch64 (internalData region16) 16 16 = Some (mkSlice 65536 0 0) /\
  UnsafeUnmapSlice Arch64 os_ok (mkSlice 65536 0 0) world16 =
    (Returned None, mkWorld region16 [EvSyscall SYS_MUNMAP [65536; 0; 0]]).
Proof. split; reflexivity. Qed.

(** C9: the validation compares its argument with the private
    [internalData] and with nothing else: whatever the public [Data] holds,
    a slice is accepted exactly when it lies within the bounds that
    [internalData] records.  Those bounds are written at creation, as the
    address the kernel returned and the length converted to [int], the same
    header as [Data]; no method but [UnsafeUnmap] assigns to a field of the
    receiver, and [UnsafeUnmap] sets [internalData] to nil. *)
Theorem validation_reads_internalData (a : arch) (K : OS) :
  (forall (m : MMap) (d r : SliceHeader),
      checkSlice a (mkMMap d (internalData m)) r = checkSlice a m r) /\
  (forall (m : MMap) (d r : SliceHeader),
      addressable a r ->
      addressable a (internalData m) ->
      (checkSlice a (mkMMap d (internalData m)) r = None <->
       Data (internalData m) <= Data r /\
       Data r + Len r <= Data (internalData m) + Len (internalData m))) /\
  (forall (t : trace) (addr fd offset length prot flags : Z),
      let L := effective_length K t fd length in
      let t0 := log_before_mmap t fd length in
      let base :=
        fst (os_syscall K t0 SYS_MMAP
               (mmap_args a addr fd offset L prot flags)) in
      match fst (MapAt a K addr fd offset length prot flags t) with
      | Returned (Some m, _) =>
          internalData m = mkSlice base (to_int a L) (to_int a L) /\
          MData m = internalData m
      | _ => True
      end) /\
  (forall (r : SliceHeader) (x : Z),
      keeps_self (UnsafeUnmapSlice a K r) /\
      keeps_self (SyncSlice a K r x) /\
      keeps_self (AdviseSlice a K r x) /\
      keeps_self (ProtectSlice a K r x) /\
      keeps_self (LockSlice a K r) /\
      keeps_self (UnlockSlice a K r) /\
      keeps_self (InCoreSlice a K r) /\
      keeps_self (Sync a K x) /\
      keeps_self (Advise a K x) /\
      keeps_self (Protect a K x) /\
      keeps_self (Lock a K) /\
      keeps_self (Unlock a K) /\
      keeps_self (InCore a K)) /\
  (forall s : World, internalData (self (snd (UnsafeUnmap a K s))) = nil_slice).
Proof.
  split; [| split; [| split; [| split]]].
  - intros m d r. reflexivity.
  - intros m d r Hr Hd. split.
    + intros Hc.
      exact (checkSlice_accepted_bounds a (mkMMap d (internalData m)) r
               Hr Hd Hc).
    + intros [H1 H2].
      exact (checkSlice_inside a (mkMMap d (internalData m)) r Hr Hd H1 H2).
  - intros t addr fd offset length prot flags.
    unfold effective_length, log_before_mmap, mmap_args.
    unfold MapAt, MapAt_map. unfold_monad.
    destruct (length =? -1).
    + destruct (os_fstat K t fd) as [size e1]; simpl.
      destruct (negb (e1 =? 0)); simpl; [exact I |].
      destruct (os_syscall K _ SYS_MMAP _) as [r1 e2]; simpl.
      destruct (negb (e2 =? 0)); simpl; [exact I | split; reflexivity].
    + destruct (os_syscall K _ SYS_MMAP _) as [r1 e2]; simpl.
      destruct (negb (e2 =? 0)); simpl; [exact I | split; reflexivity].
  - intros r x.
    repeat split.
    + apply UnsafeUnmapSlice_keeps_self.
    + apply SyncSlice_keeps_self.
    + apply AdviseSlice_keeps_self.
    + apply ProtectSlice_keeps_self.
    + apply LockSlice_keeps_self.
    + apply UnlockSlice_keeps_self.
    + apply InCoreSlice_keeps_self.
    + apply Sync_keeps_self.
    + apply Advise_keeps_self.
    + apply Protect_keeps_self.
    + apply Lock_keeps_self.
    + apply Unlock_keeps_self.
    + apply InCore_keeps_self.
  - intros s. now rewrite UnsafeUnmap_retires.
Qed.

(** ** Whole-region operations are the scoped ones on [Data[:]] *)

Section Whole.

Variable a : arch.
Variable K : OS.

Lemma Advise_eq (x : Z) (s : World) :
  Advise a K x s = AdviseSlice a K (MData (self s)) x s.
Proof.
  unfold Advise, bind, get_self. cbv beta iota. now rewrite slice_all_id.
Qed.

Lemma Protect_eq (x : Z) (s : World) :
  Protect a K x s = ProtectSlice a K (MData (self s)) x s.
Proof.
  unfold Protect, bind, get_self. cbv beta iota. now rewrite slice_all_id.
Qed.

Lemma Lock_eq (s : World) : Lock a K s = LockSlice a K (MData (self s)) s.
Proof.
  unfold Lock, bind, get_self. cbv beta iota. now rewrite slice_all_id.
Qed.

Lemma Unlock_eq (s : World) :
  Unlock a K s = UnlockSlice a K (MData (self s)) s.
Proof.
  unfold Unlock, bind, get_self. cbv beta iota. now rewrite slice_all_id.
Qed.

Lemma InCore_eq (s : World) :
  InCore a K s = InCoreSlice a K (MData (self s)) s.
Proof.
  unfold InCore, bind, get_self. cbv beta iota. now rewrite slice_all_id.
Qed.

(** [UnsafeUnmap] returns what the scoped form returns and logs what it
    logs, and then clears the fields. *)
Lemma UnsafeUnmap_eq (s : World) :
  UnsafeUnmap a K s =
  (fst (UnsafeUnmapSlice a K (MData (self s)) s),
   mkWorld retired (log (snd (UnsafeUnmapSlice a K (MData (self s)) s)))).
Proof. rewrite UnsafeUnmap_run, slice_all_id. reflexivity. Qed.

(** [Sync] logs what the scoped form logs, and returns nothing. *)
Lemma Sync_eq (x : Z) (s : World) :
  Sync a K x s = (Returned tt, snd (SyncSlice a K (MData (self s)) x s)).
Proof.
  unfold Sync. unfold bind at 1. unfold get_self at 1. unfold bind at 1.
  rewrite slice_all_id.
  destruct (checkSlice a (self s) (MData (self s))) as [e |] eqn:E.
  - rewrite (SyncSlice_rejected a K s _ x e E). reflexivity.
  - rewrite (SyncSlice_accepted a K s _ x E). reflexivity.
Qed.

End Whole.

(** ** The size of the residency vector *)

Lemma to_int_sub_idemp (a : arch) (x y : Z) :
  to_int a (to_int a x - y) = to_int a (x - y).
Proof.
  unfold to_int, wrapS. f_equal.
  replace ((x + 2 ^ (ptr_bits a - 1)) mod 2 ^ ptr_bits a
           - 2 ^ (ptr_bits a - 1) - y + 2 ^ (ptr_bits a - 1))
    with ((x + 2 ^ (ptr_bits a - 1)) mod 2 ^ ptr_bits a - y) by lia.
  rewrite Zminus_mod_idemp_l. f_equal. lia.
Qed.

(** The ceiling of [L / P], as the code computes it. *)
Lemma page_count (a : arch) (P L : Z) :
  0 < P -> 0 <= L -> L + P - 1 <= max_int a ->
  to_int a (Z.quot (int_sub a (int_add a L P) 1) P) = (L + P - 1) / P.
Proof.
  intros HP HL Hmax.
  assert (Hmin : min_int a <= 0) by (unfold min_int; destruct a; simpl; lia).
  unfold int_sub, int_add. rewrite to_int_sub_idemp.
  rewrite (to_int_small a (L + P - 1)) by (unfold in_int; lia).
  rewrite Z.quot_div_nonneg by lia.
  apply to_int_small. unfold in_int.
  pose proof (Z.div_pos (L + P - 1) P ltac:(lia) HP).
  assert ((L + P - 1) / P <= L + P - 1) by (apply Z.div_le_upper_bound; nia).
  lia.
Qed.

Lemma ceiling_bounds (P L : Z) :
  0 < P -> ((L + P - 1) / P - 1) * P < L <= (L + P - 1) / P * P.
Proof.
  intros HP.
  pose proof (Z.div_mod (L + P - 1) P ltac:(lia)) as Hd.
  pose proof (Z.mod_pos_bound (L + P - 1) P HP) as Hm.
  nia.
Qed.

Lemma kernel_stores_length (K : OS) (t : trace) (b : Buffer) :
  List.length (buf_bytes (kernel_stores K t b)) = List.length (buf_bytes b).
Proof. unfold kernel_stores; simpl. now rewrite length_map, length_seq. Qed.

Lemma InCoreSlice_accepted
  (a : arch) (K : OS) (s : World) (r : SliceHeader) (n : Z) :
  checkSlice a (self s) r = None ->
  os_pagesize K <> 0 ->
  to_int a (Z.quot (int_sub a (int_add a (Len r) (os_pagesize K)) 1)
                   (os_pagesize K)) = n ->
  0 <= n ->
  InCoreSlice a K r s =
  (Returned (incore_result K (log s) n
               (snd (os_syscall K (log s) SYS_MINCORE
                       [Data r; to_uintptr a (Len r); os_make K (log s) n]))),
   mkWorld (self s)
           (log s ++ [EvSyscall SYS_MINCORE
                        [Data r; to_uintptr a (Len r); os_make K (log s) n]])).
Proof.
  intros Hc HP Hn Hn0.
  unfold InCoreSlice, int_div, make_bytes, Getpagesize, incore_result.
  unfold_monad. rewrite Hc.
  replace (os_pagesize K =? 0) with false by (symmetry; now apply Z.eqb_neq).
  simpl. rewrite Hn.
  replace (n <? 0) with false by (symmetry; apply Z.ltb_ge; lia).
  simpl.
  destruct (os_syscall K (log s) SYS_MINCORE _) as [r1 errno]. simpl.
  destruct (negb (errno =? 0)); reflexivity.
Qed.





(** ** Operations on a region after [UnsafeUnmap] *)

Lemma to_uintptr_0 (a : arch) : to_uintptr a 0 = 0.
Proof. destruct a; reflexivity. Qed.

Lemma retired_accepts_nil (a : arch) : checkSlice a retired nil_slice = None.
Proof. destruct a; reflexivity. Qed.

Lemma retired_rejects (a : arch) (r : SliceHeader) :
  addressable a r -> 0 < Data r + Len r ->
  checkSlice a retired r = Some containment_error.
Proof.
  intros Hr Hpos. unfold checkSlice.
  rewrite (addressable_end a r Hr). simpl.
  replace (uintptr_add a 0 (to_uintptr a 0)) with 0
    by (destruct a; reflexivity).
  replace (0 <? Data r + Len r) with true by (symmetry; apply Z.ltb_lt; lia).
  now rewrite orb_true_r.
Qed.

Lemma scoped_rejected_intro (a : arch) (K : OS) (s : World) (r : SliceHeader) :
  checkSlice a (self s) r = Some containment_error ->
  scoped_rejected a K s r.
Proof.
  intros H x. repeat split.
  - now apply UnsafeUnmapSlice_rejected.
  - now apply SyncSlice_rejected.
  - now apply AdviseSlice_rejected.
  - now apply ProtectSlice_rejected.
  - now apply LockSlice_rejected.
  - now apply UnlockSlice_rejected.
  - now apply InCoreSlice_rejected.
Qed.

(** The claim C3 as stated fails: on the 16 byte region, with a kernel
    that accepts every call, [UnsafeUnmap] succeeds and a following [Lock]
    passes the validation, reaches the kernel with address 0 and length 0,
    and reports success. *)
Lemma Lock_after_UnsafeUnmap_reaches_kernel :
  fst (UnsafeUnmap Arch64 os_ok world16) = Returned None /\
  Lock Arch64 os_ok (snd (UnsafeUnmap Arch64 os_ok world16)) =
    (Returned None,
     mkWorld retired [EvSyscall SYS_MUNMAP [65536; 16; 0];
                      EvSyscall SYS_MLOCK [0; 0; 0]]).
Proof. split; reflexivity. Qed.

(** C3, amended: after [UnsafeUnmap], whatever the kernel answered, both
    fields are nil.  From then on a scoped operation on any slice that
    describes at least one address above 0 returns the containment error
    with no kernel call, and each whole-region operation passes its nil
    [Data] through the validation and issues one kernel call with address 0
    and length 0.  [Advise], [Protect], [Lock], [Unlock] and [UnsafeUnmap]
    return the kernel's verdict on it, [Sync] has no result, and [InCore],
    for a page size that is positive and within [int], returns the empty
    vector or the kernel's errno. *)
Theorem operations_after_UnsafeUnmap (a : arch) (K : OS) (s : World) :
  let s' := snd (UnsafeUnmap a K s) in
  self s' = retired /\
  (forall r : SliceHeader,
      addressable a r -> 0 < Data r + Len r -> scoped_rejected a K s' r) /\
  (forall x : Z,
      Sync a K x s' =
        (Returned tt,
         mkWorld retired
                 (log s' ++ [EvSyscall SYS_MSYNC [0; 0; to_uintptr a x]])) /\
      forwards K (Advise a K x) s' SYS_MADVISE [0; 0; to_uintptr a x] /\
      forwards K (Protect a K x) s' SYS_MPROTECT [0; 0; to_uintptr a x]) /\
  forwards K (Lock a K) s' SYS_MLOCK [0; 0; 0] /\
  forwards K (Unlock a K) s' SYS_MUNLOCK [0; 0; 0] /\
  forwards K (UnsafeUnmap a K) s' SYS_MUNMAP [0; 0; 0] /\
  (0 < os_pagesize K <= max_int a ->
   InCore a K s' =
     (Returned (incore_result K (log s') 0
                  (snd (os_syscall K (log s') SYS_MINCORE
                          [0; 0; os_make K (log s') 0]))),
      mkWorld retired
              (log s' ++ [EvSyscall SYS_MINCORE
                            [0; 0; os_make K (log s') 0]]))).
Proof.
  intros s'.
  assert (Hself : self s' = retired) by apply UnsafeUnmap_retires.
  assert (Hnil : checkSlice a (self s') nil_slice = None)
    by (rewrite Hself; apply retired_accepts_nil).
  assert (HD : MData (self s') = nil_slice) by now rewrite Hself.
  split; [exact Hself |].
  split.
  { intros r Hr Hpos. apply scoped_rejected_intro.
    rewrite Hself. now apply retired_rejects. }
  split.
  { intros x. split; [| split].
    - rewrite Sync_eq, HD, (SyncSlice_accepted a K s' nil_slice x Hnil).
      simpl. now rewrite Hself, to_uintptr_0.
    - unfold forwards. rewrite Advise_eq, HD.
      rewrite (AdviseSlice_accepted a K s' nil_slice x Hnil).
      simpl. now rewrite to_uintptr_0.
    - unfold forwards. rewrite Protect_eq, HD.
      rewrite (ProtectSlice_accepted a K s' nil_slice x Hnil).
      simpl. now rewrite to_uintptr_0. }
  split.
  { unfold forwards. rewrite Lock_eq, HD.
    rewrite (LockSlice_accepted a K s' nil_slice Hnil).
    simpl. now rewrite to_uintptr_0. }
  split.
  { unfold forwards. rewrite Unlock_eq, HD.
    rewrite (UnlockSlice_accepted a K s' nil_slice Hnil).
    simpl. now rewrite to_uintptr_0. }
  split.
  { unfold forwards. rewrite UnsafeUnmap_eq, HD.
    rewrite (UnsafeUnmapSlice_accepted a K s' nil_slice Hnil).
    simpl. now rewrite Hself, to_uintptr_0. }
  intros HP. rewrite InCore_eq, HD.
  assert (Hn : to_int a (Z.quot (int_sub a (int_add a (Len nil_slice)
                                            (os_pagesize K)) 1)
                                (os_pagesize K)) = 0).
  { rewrite page_count by (simpl; lia). simpl.
    apply Z.div_small. lia. }
  rewrite (InCoreSlice_accepted a K s' nil_slice 0 Hnil ltac:(lia) Hn
             ltac:(lia)).
  simpl. now rewrite Hself, to_uintptr_0.
Qed.

Lemma operations_after_UnsafeUnmap_witness :
  0 < os_pagesize os_ok <= max_int Arch64 /\
  self (snd (UnsafeUnmap Arch64 os_ok world16)) = retired /\
  forwards os_ok (Lock Arch64 os_ok) (snd (UnsafeUnmap Arch64 os_ok world16))
           SYS_MLOCK [0; 0; 0] /\
  InCore Arch64 os_ok (snd (UnsafeUnmap Arch64 os_ok world16)) =
    (Returned (Some (mkBuffer (mkSlice 131072 0 0) []), None),
     mkWorld retired [EvSyscall SYS_MUNMAP [65536; 16; 0];
                      EvSyscall SYS_MINCORE [0; 0; 131072]]).
Proof.
  assert (HP : 0 < os_pagesize os_ok <= max_int Arch64)
    by (split; [reflexivity | vm_compute; discriminate]).
  destruct (operations_after_UnsafeUnmap Arch64 os_ok world16)
    as (Hs & _ & _ & Hl & _ & _ & Hi).
  split; [exact HP | split; [exact Hs | split; [exact Hl | exact (Hi HP)]]].
Defined.

(** ** [Sync] and the result of [SyncSlice] *)

(** C6, at a region whose flush the kernel rejects: [SyncSlice] on
    [Data[:]] returns the kernel's error, while [Sync], which runs that very
    call, returns nothing: the error does not reach the caller. *)
Theorem Sync_drops_the_error :
  SyncSlice Arch64 os_msync_fails (slice_all (MData region16)) 4 world16 =
    (Returned (Some (Errno EINVAL)),
     mkWorld region16 [EvSyscall SYS_MSYNC [65536; 16; 4]]) /\
  Sync Arch64 os_msync_fails 4 world16 =
    (Returned tt, mkWorld region16 [EvSyscall SYS_MSYNC [65536; 16; 4]]).
Proof. split; reflexivity. Qed.

(** ** Creation *)

Section Creation.

Variable a : arch.
Variable K : OS.

Lemma MapAt_map_run (t : trace) (addr fd offset length prot flags : Z) :
  let args := [addr; to_uintptr a length; to_uintptr a prot;
               to_uintptr a flags; to_uintptr a fd; to_uintptr a offset] in
  MapAt_map a K addr fd offset length prot flags t =
  (Returned
     (if snd (os_syscall K t SYS_MMAP args) =? 0
      then (Some (mkMMap
                    (mkSlice (fst (os_syscall K t SYS_MMAP args))
                             (to_int a length) (to_int a length))
                    (mkSlice (fst (os_syscall K t SYS_MMAP args))
                             (to_int a length) (to_int a length))), None)
      else (None, Some (Errno (snd (os_syscall K t SYS_MMAP args))))),
   t ++ [EvSyscall SYS_MMAP args]).
Proof.
  intros args. unfold MapAt_map. unfold_monad. fold args.
  destruct (os_syscall K t SYS_MMAP args) as [r1 errno]. simpl.
  destruct (errno =? 0); reflexivity.
Qed.

Lemma SliceAPI_MapAt_map_run
  (t : trace) (addr fd offset length prot flags : Z) :
  let args := [addr; to_uintptr a length; to_uintptr a prot;
               to_uintptr a flags; to_uintptr a fd; to_uintptr a offset] in
  SliceAPI.MapAt_map a K addr fd offset length prot flags t =
  (Returned
     (if snd (os_syscall K t SYS_MMAP args) =? 0
      then (mkSlice (fst (os_syscall K t SYS_MMAP args))
                    (to_int a length) (to_int a length), None)
      else (nil_slice, Some (Errno (snd (os_syscall K t SYS_MMAP args))))),
   t ++ [EvSyscall SYS_MMAP args]).
Proof.
  intros args. unfold SliceAPI.MapAt_map. unfold_monad. fold args.
  destruct (os_syscall K t SYS_MMAP args) as [r1 errno]. simpl.
  destruct (errno =? 0); reflexivity.
Qed.

(** With -1 as the length the first thing [MapAt] does is [Fstat]. *)
Lemma MapAt_unspecified (t : trace) (addr fd offset prot flags : Z) :
  MapAt a K addr fd offset (-1) prot flags t =
  if snd (os_fstat K t fd) =? 0
  then MapAt_map a K addr fd offset (fst (os_fstat K t fd)) prot flags
                 (t ++ [EvFstat fd])
  else (Returned (None, Some (Errno (snd (os_fstat K t fd)))),
        t ++ [EvFstat fd]).
Proof.
  unfold MapAt. simpl. unfold bind at 1. unfold Fstat.
  destruct (os_fstat K t fd) as [size errno]. simpl.
  destruct (errno =? 0); reflexivity.
Qed.

Lemma SliceAPI_MapAt_unspecified (t : trace) (addr fd offset prot flags : Z) :
  SliceAPI.MapAt a K addr fd offset (-1) prot flags t =
  if snd (os_fstat K t fd) =? 0
  then SliceAPI.MapAt_map a K addr fd offset (fst (os_fstat K t fd)) prot flags
                          (t ++ [EvFstat fd])
  else (Returned (nil_slice, Some (Errno (snd (os_fstat K t fd)))),
        t ++ [EvFstat fd]).
Proof.
  unfold SliceAPI.MapAt. simpl. unfold bind at 1. unfold Fstat.
  destruct (os_fstat K t fd) as [size errno]. simpl.
  destruct (errno =? 0); reflexivity.
Qed.

Lemma MapAt_specified (t : trace) (addr fd offset length prot flags : Z) :
  length <> -1 ->
  MapAt a K addr fd offset length prot flags t =
  MapAt_map a K addr fd offset length prot flags t.
Proof.
  intros H. unfold MapAt.
  now replace (length =? -1) with false by (symmetry; now apply Z.eqb_neq).
Qed.

Lemma SliceAPI_MapAt_specified
  (t : trace) (addr fd offset length prot flags : Z) :
  length <> -1 ->
  SliceAPI.MapAt a K addr fd offset length prot flags t =
  SliceAPI.MapAt_map a K addr fd offset length prot flags t.
Proof.
  intros H. unfold SliceAPI.MapAt.
  now replace (length =? -1) with false by (symmetry; now apply Z.eqb_neq).
Qed.

End Creation.

(** C5: when the length is -1, [MapAt] asks [Fstat] for the size of the
    descriptor.  If that fails, the errno comes back as the error, there is
    no region, and [Fstat] is the only call the kernel has seen; if it
    succeeds, the mapping call that follows carries the size as its
    length.  Both API shapes agree. *)
Theorem MapAt_unspecified_length
  (a : arch) (K : OS) (t : trace) (addr fd offset prot flags size errno : Z) :
  os_fstat K t fd = (size, errno) ->
  (errno <> 0 ->
   MapAt a K addr fd offset (-1) prot flags t =
     (Returned (None, Some (Errno errno)), t ++ [EvFstat fd]) /\
   SliceAPI.MapAt a K addr fd offset (-1) prot flags t =
     (Returned (nil_slice, Some (Errno errno)), t ++ [EvFstat fd])) /\
  (errno = 0 ->
   let call := EvSyscall SYS_MMAP
                 [addr; to_uintptr a size; to_uintptr a prot;
                  to_uintptr a flags; to_uintptr a fd; to_uintptr a offset] in
   snd (MapAt a K addr fd offset (-1) prot flags t)
     = t ++ [EvFstat fd; call] /\
   snd (SliceAPI.MapAt a K addr fd offset (-1) prot flags t)
     = t ++ [EvFstat fd; call]).
Proof.
  intros Hf.
  rewrite MapAt_unspecified, SliceAPI_MapAt_unspecified, Hf. simpl.
  split.
  - intros He.
    replace (errno =? 0) with false by (symmetry; now apply Z.eqb_neq).
    split; reflexivity.
  - intros ->. simpl.
    rewrite MapAt_map_run, SliceAPI_MapAt_map_run. simpl.
    rewrite <- app_assoc. split; reflexivity.
Qed.

Lemma MapAt_unspecified_length_witness :
  os_fstat os_fstat_fails [] 3 = (0, 9) /\
  9 <> 0 /\
  MapAt Arch64 os_fstat_fails 0 3 0 (-1) 3 1 [] =
    (Returned (None, Some (Errno 9)), [EvFstat 3]).
Proof.
  assert (Hf : os_fstat os_fstat_fails [] 3 = (0, 9)) by reflexivity.
  assert (He : 9 <> 0) by discriminate.
  destruct (MapAt_unspecified_length Arch64 os_fstat_fails [] 0 3 0 3 1 0 9 Hf)
    as (Hfail & _).
  destruct (Hfail He) as (H1 & _).
  split; [exact Hf | split; [exact He | exact H1]].
Defined.

Lemma MapAt_success_header
  (a : arch) (K : OS) (t : trace) (addr fd offset length prot flags : Z)
  (m : MMap) :
  fst (MapAt a K addr fd offset length prot flags t) = Returned (Some m, None) ->
  exists r1 : Z,
    let n := to_int a (effective_length K t fd length) in
    m = mkMMap (mkSlice r1 n n) (mkSlice r1 n n).
Proof.
  unfold effective_length.
  destruct (Z.eq_dec length (-1)) as [-> | Hne].
  - rewrite MapAt_unspecified. simpl.
    destruct (snd (os_fstat K t fd) =? 0); [| discriminate].
    rewrite MapAt_map_run. simpl.
    destruct (snd (os_syscall K _ SYS_MMAP _) =? 0); [| discriminate].
    intros H. injection H as <-. eexists. reflexivity.
  - rewrite MapAt_specified by assumption.
    replace (length =? -1) with false by (symmetry; now apply Z.eqb_neq).
    rewrite MapAt_map_run. simpl.
    destruct (snd (os_syscall K _ SYS_MMAP _) =? 0); [| discriminate].
    intros H. injection H as <-. eexists. reflexivity.
Qed.

Lemma SliceAPI_MapAt_success_header
  (a : arch) (K : OS) (t : trace) (addr fd offset length prot flags : Z)
  (h : SliceHeader) :
  fst (SliceAPI.MapAt a K addr fd offset length prot flags t)
    = Returned (h, None) ->
  exists r1 : Z,
    let n := to_int a (effective_length K t fd length) in
    h = mkSlice r1 n n.
Proof.
  unfold effective_length.
  destruct (Z.eq_dec length (-1)) as [-> | Hne].
  - rewrite SliceAPI_MapAt_unspecified. simpl.
    destruct (snd (os_fstat K t fd) =? 0); [| discriminate].
    rewrite SliceAPI_MapAt_map_run. simpl.
    destruct (snd (os_syscall K _ SYS_MMAP _) =? 0); [| discriminate].
    intros H. injection H as <-. eexists. reflexivity.
  - rewrite SliceAPI_MapAt_specified by assumption.
    replace (length =? -1) with false by (symmetry; now apply Z.eqb_neq).
    rewrite SliceAPI_MapAt_map_run. simpl.
    destruct (snd (os_syscall K _ SYS_MMAP _) =? 0); [| discriminate].
    intros H. injection H as <-. eexists. reflexivity.
Qed.

(** C10: the length of the buffer [MapAt] builds is the 64-bit length
    (the caller's, or the file's size) converted to [int]: it agrees with
    the length modulo 2^w, lies in the range of [int], and therefore is
    not the length whenever the length is outside that range. *)
Theorem MapAt_truncates_length
  (a : arch) (K : OS) (t : trace) (addr fd offset length prot flags : Z)
  (m : MMap) (h : SliceHeader) :
  fst (MapAt a K addr fd offset length prot flags t) = Returned (Some m, None) ->
  fst (SliceAPI.MapAt a K addr fd offset length prot flags t)
    = Returned (h, None) ->
  let L := effective_length K t fd length in
  Len (MData m) = to_int a L /\
  Cap (MData m) = to_int a L /\
  Len (internalData m) = to_int a L /\
  Len h = to_int a L /\
  (exists k : Z, to_int a L = L + k * 2 ^ ptr_bits a) /\
  in_int a (to_int a L) /\
  (~ in_int a L -> to_int a L <> L).
Proof.
  intros Hm Hh L.
  destruct (MapAt_success_header a K t addr fd offset length prot flags m Hm)
    as (r1 & ->).
  destruct (SliceAPI_MapAt_success_header a K t addr fd offset length prot
              flags h Hh) as (r2 & ->).
  simpl. fold L.
  repeat split; try reflexivity.
  - apply to_int_congr.
  - apply (to_int_range a L).
  - apply (to_int_range a L).
  - intros Hout Heq. apply Hout. rewrite <- Heq. apply to_int_range.
Qed.

Lemma MapAt_truncates_length_witness :
  fst (MapAt Arch32 os_ok 0 3 0 4294967301 3 1 [])
    = Returned (Some (mkMMap (mkSlice 65536 5 5) (mkSlice 65536 5 5)), None) /\
  fst (SliceAPI.MapAt Arch32 os_ok 0 3 0 4294967301 3 1 [])
    = Returned (mkSlice 65536 5 5, None) /\
  Len (MData (mkMMap (mkSlice 65536 5 5) (mkSlice 65536 5 5)))
    = to_int Arch32 4294967301 /\
  to_int Arch32 4294967301 <> 4294967301.
Proof.
  assert (Hm : fst (MapAt Arch32 os_ok 0 3 0 4294967301 3 1 [])
               = Returned (Some (mkMMap (mkSlice 65536 5 5)
                                        (mkSlice 65536 5 5)), None))
    by reflexivity.
  assert (Hh : fst (SliceAPI.MapAt Arch32 os_ok 0 3 0 4294967301 3 1 [])
               = Returned (mkSlice 65536 5 5, None))
    by reflexivity.
  destruct (MapAt_truncates_length Arch32 os_ok [] 0 3 0 4294967301 3 1
              _ _ Hm Hh) as (Hl & _ & _ & _ & _ & _ & Hne).
  split; [exact Hm | split; [exact Hh | split; [exact Hl |]]].
  apply Hne. unfold in_int. vm_compute. intros [_ H]. apply H. reflexivity.
Defined.

(** ** The offset of the mapping call *)

Lemma to_int64_mul_4096 (x : Z) : to_int64 (x * 4096) mod 4096 = 0.
Proof.
  unfold to_int64.
  destruct (wrapS_congr 64 (x * 4096) ltac:(lia)) as (k & ->).
  replace (x * 4096 + k * 2 ^ 64) with ((x + k * 2 ^ 52) * 4096) by lia.
  apply Z_mod_mult.
Qed.

Lemma to_int64_small (x : Z) : in_int64 x -> to_int64 x = x.
Proof.
  unfold in_int64, to_int64, wrapS. intros H.
  rewrite Z.mod_small by lia. lia.
Qed.

Lemma to_int64_to_uintptr (x : Z) :
  in_int64 x -> to_int64 (to_uintptr Arch64 x) = x.
Proof.
  unfold in_int64, to_int64, to_uintptr, wrapS, wrapU. simpl ptr_bits.
  intros H. rewrite Zplus_mod_idemp_l.
  rewrite Z.mod_small by lia. lia.
Qed.

(** C4: the adapter for [SYS_MMAP2] answers EINVAL, and calls nothing, for
    every offset that is not a multiple of 4096, and passes the number of
    pages for an offset of [p] whole pages; the adapter of amd64 issues
    [SYS_MMAP] for every offset, with the same 64 bits as its last
    argument. *)
Theorem mmap_syscall_offset
  (a : arch) (K : OS) (t : trace) (addr length prot flags fd offset : Z) :
  in_int64 offset ->
  (offset mod 4096 <> 0 ->
   linux_mmap2.mmap_syscall a K addr length prot flags fd offset t
     = (Returned (0, EINVAL), t)) /\
  (forall p : Z,
      0 <= p < 2 ^ ptr_bits a -> offset = p * 4096 ->
      linux_mmap2.mmap_syscall a K addr length prot flags fd offset t
        = (Returned (os_syscall K t SYS_MMAP2
                       [addr; length; prot; flags; fd; p]),
           t ++ [EvSyscall SYS_MMAP2 [addr; length; prot; flags; fd; p]])) /\
  linux_amd64.mmap_syscall K addr length prot flags fd offset t
    = (Returned (os_syscall K t SYS_MMAP
                   [addr; length; prot; flags; fd; to_uintptr Arch64 offset]),
       t ++ [EvSyscall SYS_MMAP
               [addr; length; prot; flags; fd; to_uintptr Arch64 offset]]) /\
  to_int64 (to_uintptr Arch64 offset) = offset /\
  (0 <= offset -> to_uintptr Arch64 offset = offset).
Proof.
  intros Hoff.
  split; [| split; [| split; [| split]]].
  - intros Hmod. unfold linux_mmap2.mmap_syscall.
    replace (offset =? _) with false; [reflexivity |].
    symmetry. apply Z.eqb_neq. intros Heq. apply Hmod.
    rewrite Heq. apply to_int64_mul_4096.
  - intros p Hp ->. unfold linux_mmap2.mmap_syscall, linux_mmap2.page_of.
    rewrite Z.quot_mul by lia.
    rewrite (to_uintptr_small a p Hp).
    assert (Hp64 : in_int64 p) by (unfold in_int64 in *; lia).
    rewrite (to_int64_small p Hp64), (to_int64_small _ Hoff).
    rewrite Z.eqb_refl. unfold_monad.
    now destruct (os_syscall K t SYS_MMAP2 _).
  - unfold linux_amd64.mmap_syscall. unfold_monad.
    now destruct (os_syscall K t SYS_MMAP _).
  - now apply to_int64_to_uintptr.
  - intros H0. apply to_uintptr_small. unfold in_int64 in Hoff. simpl. lia.
Qed.

Lemma mmap_syscall_offset_witness :
  in_int64 100 /\
  100 mod 4096 <> 0 /\
  linux_mmap2.mmap_syscall Arch32 os_ok 0 16 3 1 3 100 []
    = (Returned (0, EINVAL), []).
Proof.
  assert (Hoff : in_int64 100) by (unfold in_int64; lia).
  assert (Hmod : 100 mod 4096 <> 0) by (vm_compute; discriminate).
  destruct (mmap_syscall_offset Arch32 os_ok [] 0 16 3 1 3 100 Hoff)
    as (Hrej & _).
  split; [exact Hoff | split; [exact Hmod | exact (Hrej Hmod)]].
Defined.

(** The check of the [SYS_MMAP2] adapter also turns away whole pages it
    cannot pass on: a negative offset, here on a 32-bit word. *)
Example mmap2_negative_offset :
  linux_mmap2.mmap_syscall Arch32 os_ok 0 16 3 1 3 (-4096) []
    = (Returned (0, EINVAL), []).
Proof. reflexivity. Qed.

(** * Further properties of the package *)

(** ** Scoped operations on slices of the region *)

(** X1: on a slice [r = d[lo:hi]] of the region the scoped flush, advise,
    protect, lock and unlock each issue their own call on exactly the
    [hi - lo] bytes of [r], from its address ([lo] bytes after the base, or
    the base when [lo] is the capacity), return the kernel's verdict and
    leave the receiver alone. *)
Theorem scoped_operations_on_subslice
  (a : arch) (K : OS) (s : World) (lo hi x : Z) (r : SliceHeader) :
  wf_slice a (internalData (self s)) ->
  0 <= lo <= hi ->
  hi <= Len (internalData (self s)) ->
  slice_range a (internalData (self s)) lo hi = Some r ->
  let start := subslice_start (internalData (self s)) lo in
  Data r = start /\
  forwards K (SyncSlice a K r x) s
           SYS_MSYNC [start; hi - lo; to_uintptr a x] /\
  forwards K (AdviseSlice a K r x) s
           SYS_MADVISE [start; hi - lo; to_uintptr a x] /\
  forwards K (ProtectSlice a K r x) s
           SYS_MPROTECT [start; hi - lo; to_uintptr a x] /\
  forwards K (LockSlice a K r) s SYS_MLOCK [start; hi - lo; 0] /\
  forwards K (UnlockSlice a K r) s SYS_MUNLOCK [start; hi - lo; 0].
Proof.
  intros Hd Hlo Hhi E start.
  pose proof (checkSlice_subslice a (self s) r lo hi Hd Hlo Hhi E) as Hc.
  destruct (slice_range_inside a _ r lo hi Hd Hlo Hhi E) as (Hr & Hwf).
  pose proof (addressable_len a r (wf_slice_addressable a r Hwf)) as Hlen.
  assert (HD : Data r = start) by (rewrite Hr; reflexivity).
  assert (HL : Len r = hi - lo) by (rewrite Hr; reflexivity).
  rewrite HL in Hlen.
  split; [exact HD |].
  repeat split.
  - pose proof (SyncSlice_accepted a K s r x Hc) as Hf.
    now rewrite HD, HL, Hlen in Hf.
  - pose proof (AdviseSlice_accepted a K s r x Hc) as Hf.
    now rewrite HD, HL, Hlen in Hf.
  - pose proof (ProtectSlice_accepted a K s r x Hc) as Hf.
    now rewrite HD, HL, Hlen in Hf.
  - pose proof (LockSlice_accepted a K s r Hc) as Hf.
    now rewrite HD, HL, Hlen in Hf.
  - pose proof (UnlockSlice_accepted a K s r Hc) as Hf.
    now rewrite HD, HL, Hlen in Hf.
Qed.

Lemma scoped_operations_on_subslice_witness :
  wf_slice Arch64 (internalData (self world16)) /\
  slice_range Arch64 (internalData (self world16)) 7 10
    = Some (mkSlice 65543 3 9) /\
  SyncSlice Arch64 os_ok (mkSlice 65543 3 9) 4 world16 =
    (Returned None, mkWorld region16 [EvSyscall SYS_MSYNC [65543; 3; 4]]).
Proof.
  assert (Hd : wf_slice Arch64 (internalData (self world16)))
    by (unfold wf_slice; simpl; lia).
  assert (E : slice_range Arch64 (internalData (self world16)) 7 10
              = Some (mkSlice 65543 3 9)) by reflexivity.
  destruct (scoped_operations_on_subslice Arch64 os_ok world16 7 10 4
              (mkSlice 65543 3 9) Hd ltac:(lia) ltac:(simpl; lia) E)
    as (_ & Hs & _).
  split; [exact Hd | split; [exact E | exact Hs]].
Defined.

(** X2: a slice taken out of an accepted slice is accepted again: the
    validation is closed under re-slicing within the length. *)
Theorem checkSlice_reslice
  (a : arch) (m : MMap) (r r' : SliceHeader) (lo hi : Z) :
  addressable a (internalData m) ->
  wf_slice a r ->
  checkSlice a m r = None ->
  0 <= lo <= hi ->
  hi <= Len r ->
  slice_range a r lo hi = Some r' ->
  checkSlice a m r' = None.
Proof.
  intros Hd Hr Hc Hlo Hhi E.
  destruct (checkSlice_accepted_bounds a m r
              (wf_slice_addressable a r Hr) Hd Hc) as (H1 & H2).
  destruct (slice_range_inside a r r' lo hi Hr Hlo Hhi E) as (-> & Hr').
  assert (Hcap : hi <= Cap r) by (destruct Hr; lia).
  destruct (subslice_start_bounds r lo hi Hlo Hcap).
  apply checkSlice_inside; auto using wf_slice_addressable; simpl; lia.
Qed.

Lemma checkSlice_reslice_witness :
  checkSlice Arch64 region16 (mkSlice 65543 3 9) = None /\
  slice_range Arch64 (mkSlice 65543 3 9) 1 2 = Some (mkSlice 65544 1 8) /\
  checkSlice Arch64 region16 (mkSlice 65544 1 8) = None.
Proof.
  assert (Hd : addressable Arch64 (internalData region16))
    by (unfold addressable; simpl; lia).
  assert (Hr : wf_slice Arch64 (mkSlice 65543 3 9))
    by (unfold wf_slice; simpl; lia).
  assert (Hc : checkSlice Arch64 region16 (mkSlice 65543 3 9) = None)
    by reflexivity.
  assert (E : slice_range Arch64 (mkSlice 65543 3 9) 1 2
              = Some (mkSlice 65544 1 8)) by reflexivity.
  split; [exact Hc | split; [exact E |]].
  exact (checkSlice_reslice Arch64 region16 _ _ 1 2 Hd Hr Hc
           ltac:(lia) ltac:(simpl; lia) E).
Defined.

(** ** What a scoped operation can do *)

Lemma scoped_outcome_intro
  (a : arch) (K : OS) (c : M World (option error)) (s : World)
  (r : SliceHeader) (nr : sysno) (args : list Z) :
  (forall e, checkSlice a (self s) r = Some e -> rejects c s (Some e)) ->
  (checkSlice a (self s) r = None -> forwards K c s nr args) ->
  scoped_outcome K c s nr args.
Proof.
  intros Hrej Hacc. unfold scoped_outcome.
  destruct (checkSlice_cases a (self s) r) as [E | E].
  - right. now apply Hacc.
  - left. now apply Hrej.
Qed.

(** X3: each scoped operation with an error result ends in one of two
    ways: the containment error with no call and nothing changed, or
    exactly one call, of its own number, on the address and length of the
    slice it was given, with the receiver unchanged. *)
Theorem scoped_operation_outcomes
  (a : arch) (K : OS) (s : World) (r : SliceHeader) (x : Z) :
  let range3 (third : Z) := [Data r; to_uintptr a (Len r); third] in
  scoped_outcome K (UnsafeUnmapSlice a K r) s SYS_MUNMAP (range3 0) /\
  scoped_outcome K (SyncSlice a K r x) s SYS_MSYNC (range3 (to_uintptr a x)) /\
  scoped_outcome K (AdviseSlice a K r x) s SYS_MADVISE
                 (range3 (to_uintptr a x)) /\
  scoped_outcome K (ProtectSlice a K r x) s SYS_MPROTECT
                 (range3 (to_uintptr a x)) /\
  scoped_outcome K (LockSlice a K r) s SYS_MLOCK (range3 0) /\
  scoped_outcome K (UnlockSlice a K r) s SYS_MUNLOCK (range3 0).
Proof.
  intros range3. unfold range3.
  repeat split; apply (scoped_outcome_intro a K _ s r).
  - intros e. apply UnsafeUnmapSlice_rejected.
  - apply UnsafeUnmapSlice_accepted.
  - intros e. apply SyncSlice_rejected.
  - apply SyncSlice_accepted.
  - intros e. apply AdviseSlice_rejected.
  - apply AdviseSlice_accepted.
  - intros e. apply ProtectSlice_rejected.
  - apply ProtectSlice_accepted.
  - intros e. apply LockSlice_rejected.
  - apply LockSlice_accepted.
  - intros e. apply UnlockSlice_rejected.
  - apply UnlockSlice_accepted.
Qed.

Lemma errno_error_nil (errno : Z) : errno_error errno = None <-> errno = 0.
Proof.
  unfold errno_error. destruct (errno =? 0) eqn:E; simpl.
  - apply Z.eqb_eq in E. tauto.
  - apply Z.eqb_neq in E. split; [discriminate | contradiction].
Qed.

Lemma nil_result_iff
  (a : arch) (K : OS) (c : M World (option error)) (s : World)
  (r : SliceHeader) (nr : sysno) (third : Z) :
  (forall e, checkSlice a (self s) r = Some e -> rejects c s (Some e)) ->
  (checkSlice a (self s) r = None ->
   forwards K c s nr [Data r; to_uintptr a (Len r); third]) ->
  fst (c s) = Returned None <-> accepted_and_ok a K s r nr third.
Proof.
  intros Hrej Hacc. unfold accepted_and_ok.
  destruct (checkSlice a (self s) r) as [e |] eqn:E.
  - rewrite (Hrej e eq_refl). simpl.
    split; [discriminate | intros [H _]; discriminate].
  - rewrite (Hacc eq_refl). simpl. split.
    + intros H. injection H as H. apply errno_error_nil in H. now split.
    + intros [_ H]. f_equal. now apply errno_error_nil.
Qed.

(** X4: a scoped operation returns the nil error exactly when its slice
    passed the validation and the kernel answered errno 0 to the call; any
    other result is the containment error or the kernel's errno. *)
Theorem scoped_operation_nil_result
  (a : arch) (K : OS) (s : World) (r : SliceHeader) (x : Z) :
  (fst (UnsafeUnmapSlice a K r s) = Returned None <->
   accepted_and_ok a K s r SYS_MUNMAP 0) /\
  (fst (SyncSlice a K r x s) = Returned None <->
   accepted_and_ok a K s r SYS_MSYNC (to_uintptr a x)) /\
  (fst (AdviseSlice a K r x s) = Returned None <->
   accepted_and_ok a K s r SYS_MADVISE (to_uintptr a x)) /\
  (fst (ProtectSlice a K r x s) = Returned None <->
   accepted_and_ok a K s r SYS_MPROTECT (to_uintptr a x)) /\
  (fst (LockSlice a K r s) = Returned None <->
   accepted_and_ok a K s r SYS_MLOCK 0) /\
  (fst (UnlockSlice a K r s) = Returned None <->
   accepted_and_ok a K s r SYS_MUNLOCK 0).
Proof.
  split; [| split; [| split; [| split; [| split]]]];
    apply nil_result_iff.
  - intros e. apply UnsafeUnmapSlice_rejected.
  - apply UnsafeUnmapSlice_accepted.
  - intros e. apply SyncSlice_rejected.
  - apply SyncSlice_accepted.
  - intros e. apply AdviseSlice_rejected.
  - apply AdviseSlice_accepted.
  - intros e. apply ProtectSlice_rejected.
  - apply ProtectSlice_accepted.
  - intros e. apply LockSlice_rejected.
  - apply LockSlice_accepted.
  - intros e. apply UnlockSlice_rejected.
  - apply UnlockSlice_accepted.
Qed.

(** ** Whole-region operations and the public [Data] *)

(** The bounds themselves always pass the validation, whatever they are. *)
Lemma checkSlice_self (a : arch) (m : MMap) :
  checkSlice a m (internalData m) = None.
Proof. unfold checkSlice. now rewrite !Z.ltb_irrefl. Qed.

Section Untouched.

Variable a : arch.
Variable K : OS.
Variable s : World.
Hypothesis Hfresh : MData (self s) = internalData (self s).

Lemma untouched_accepted : checkSlice a (self s) (MData (self s)) = None.
Proof. rewrite Hfresh. apply checkSlice_self. Qed.

Lemma untouched_Lock :
  forwards K (Lock a K) s SYS_MLOCK [Data (internalData (self s));
            to_uintptr a (Len (internalData (self s))); 0].
Proof.
  unfold forwards. rewrite Lock_eq.
  rewrite (LockSlice_accepted a K s _ untouched_accepted).
  now rewrite Hfresh.
Qed.

Lemma untouched_Unlock :
  forwards K (Unlock a K) s SYS_MUNLOCK [Data (internalData (self s));
            to_uintptr a (Len (internalData (self s))); 0].
Proof.
  unfold forwards. rewrite Unlock_eq.
  rewrite (UnlockSlice_accepted a K s _ untouched_accepted).
  now rewrite Hfresh.
Qed.

Lemma untouched_Advise (x : Z) :
  forwards K (Advise a K x) s
           SYS_MADVISE [Data (internalData (self s));
            to_uintptr a (Len (internalData (self s))); to_uintptr a x].
Proof.
  unfold forwards. rewrite Advise_eq.
  rewrite (AdviseSlice_accepted a K s _ x untouched_accepted).
  now rewrite Hfresh.
Qed.

Lemma untouched_Protect (x : Z) :
  forwards K (Protect a K x) s
           SYS_MPROTECT [Data (internalData (self s));
            to_uintptr a (Len (internalData (self s))); to_uintptr a x].
Proof.
  unfold forwards. rewrite Protect_eq.
  rewrite (ProtectSlice_accepted a K s _ x untouched_accepted).
  now rewrite Hfresh.
Qed.

Lemma untouched_Sync (x : Z) :
  Sync a K x s =
  (Returned tt,
   mkWorld (self s)
           (log s ++ [EvSyscall SYS_MSYNC
                        [Data (internalData (self s));
            to_uintptr a (Len (internalData (self s))); to_uintptr a x]])).
Proof.
  rewrite Sync_eq.
  rewrite (SyncSlice_accepted a K s _ x untouched_accepted).
  now rewrite Hfresh.
Qed.

Lemma untouched_UnsafeUnmap :
  UnsafeUnmap a K s =
  (Returned (errno_error
               (snd (os_syscall K (log s) SYS_MUNMAP
                       [Data (internalData (self s));
            to_uintptr a (Len (internalData (self s))); 0]))),
   mkWorld retired
           (log s ++ [EvSyscall SYS_MUNMAP
                        [Data (internalData (self s));
            to_uintptr a (Len (internalData (self s))); 0]])).
Proof.
  rewrite UnsafeUnmap_eq.
  rewrite (UnsafeUnmapSlice_accepted a K s _ untouched_accepted).
  now rewrite Hfresh.
Qed.

End Untouched.

(** X5: on a region whose public [Data] still equals the bounds recorded
    at creation, no whole-region operation can fail the validation, whatever
    the header holds: each one issues its call on the address and length of
    the region and hands back the kernel's verdict ([Sync] hands back
    nothing), and [UnsafeUnmap] clears the fields whether or not the kernel
    accepted the unmapping. *)
Theorem whole_region_on_untouched_Data
  (a : arch) (K : OS) (s : World) (x : Z) :
  MData (self s) = internalData (self s) ->
  let d := internalData (self s) in
  let range3 (third : Z) := [Data d; to_uintptr a (Len d); third] in
  Sync a K x s =
    (Returned tt,
     mkWorld (self s)
             (log s ++ [EvSyscall SYS_MSYNC (range3 (to_uintptr a x))])) /\
  forwards K (Advise a K x) s SYS_MADVISE (range3 (to_uintptr a x)) /\
  forwards K (Protect a K x) s SYS_MPROTECT (range3 (to_uintptr a x)) /\
  forwards K (Lock a K) s SYS_MLOCK (range3 0) /\
  forwards K (Unlock a K) s SYS_MUNLOCK (range3 0) /\
  UnsafeUnmap a K s =
    (Returned (errno_error (snd (os_syscall K (log s) SYS_MUNMAP (range3 0)))),
     mkWorld retired (log s ++ [EvSyscall SYS_MUNMAP (range3 0)])).
Proof.
  intros Hfresh d range3. unfold range3, d.
  split; [| split; [| split; [| split; [| split]]]].
  - now apply untouched_Sync.
  - now apply untouched_Advise.
  - now apply untouched_Protect.
  - now apply untouched_Lock.
  - now apply untouched_Unlock.
  - now apply untouched_UnsafeUnmap.
Qed.

Lemma whole_region_on_untouched_Data_witness :
  MData (self world16) = internalData (self world16) /\
  UnsafeUnmap Arch64 os_msync_fails world16 =
    (Returned None, mkWorld retired [EvSyscall SYS_MUNMAP [65536; 16; 0]]).
Proof.
  assert (Hf : MData (self world16) = internalData (self world16))
    by reflexivity.
  destruct (whole_region_on_untouched_Data Arch64 os_msync_fails world16 4 Hf)
    as (_ & _ & _ & _ & _ & Hu).
  split; [exact Hf | exact Hu].
Defined.

(** X6: when the public [Data] has been replaced by a slice outside the
    bounds, [UnsafeUnmap] returns the containment error and the kernel is
    never asked to unmap, yet both fields are cleared all the same: the
    bounds of the mapping are gone from the object. *)
Theorem UnsafeUnmap_with_foreign_Data (a : arch) (K : OS) (s : World) :
  checkSlice a (self s) (MData (self s)) <> None ->
  UnsafeUnmap a K s =
    (Returned (Some containment_error), mkWorld retired (log s)).
Proof.
  intros H. apply checkSlice_fails in H.
  rewrite UnsafeUnmap_eq.
  now rewrite (UnsafeUnmapSlice_rejected a K s _ _ H).
Qed.

Lemma UnsafeUnmap_with_foreign_Data_witness :
  checkSlice Arch64 region_reassigned (MData region_reassigned) <> None /\
  UnsafeUnmap Arch64 os_ok (mkWorld region_reassigned []) =
    (Returned (Some containment_error), mkWorld retired []).
Proof.
  assert (H : checkSlice Arch64 (self (mkWorld region_reassigned []))
                (MData (self (mkWorld region_reassigned []))) <> None)
    by (vm_compute; discriminate).
  split; [exact H |].
  exact (UnsafeUnmap_with_foreign_Data Arch64 os_ok
           (mkWorld region_reassigned []) H).
Defined.

(** X7: when the public [Data] does not pass the validation, [Sync] does
    nothing at all and says nothing: no call is issued, and its caller gets
    no error. *)
Theorem Sync_with_foreign_Data (a : arch) (K : OS) (s : World) (x : Z) :
  checkSlice a (self s) (MData (self s)) <> None ->
  Sync a K x s = (Returned tt, s).
Proof.
  intros H. apply checkSlice_fails in H.
  rewrite Sync_eq.
  now rewrite (SyncSlice_rejected a K s _ x _ H).
Qed.

Lemma Sync_with_foreign_Data_witness :
  checkSlice Arch64 region_reassigned (MData region_reassigned) <> None /\
  Sync Arch64 os_ok 4 (mkWorld region_reassigned []) =
    (Returned tt, mkWorld region_reassigned []).
Proof.
  assert (H : checkSlice Arch64 (self (mkWorld region_reassigned []))
                (MData (self (mkWorld region_reassigned []))) <> None)
    by (vm_compute; discriminate).
  split; [exact H |].
  exact (Sync_with_foreign_Data Arch64 os_ok
           (mkWorld region_reassigned []) 4 H).
Defined.

(** X8: the package keeps no record of locks: on an untouched region
    [Lock] followed by [Unlock] issues the two calls in that order on the
    same range, each answered by the kernel on its own, and the receiver is
    as before. *)
Theorem Lock_then_Unlock (a : arch) (K : OS) (s : World) :
  MData (self s) = internalData (self s) ->
  let d := internalData (self s) in
  let args := [Data d; to_uintptr a (Len d); 0] in
  let t1 := log s ++ [EvSyscall SYS_MLOCK args] in
  (e1 <- Lock a K ;; e2 <- Unlock a K ;; ret (e1, e2)) s =
  (Returned (errno_error (snd (os_syscall K (log s) SYS_MLOCK args)),
             errno_error (snd (os_syscall K t1 SYS_MUNLOCK args))),
   mkWorld (self s) (t1 ++ [EvSyscall SYS_MUNLOCK args])).
Proof.
  intros Hfresh d args t1.
  unfold bind at 1. rewrite (untouched_Lock a K s Hfresh).
  unfold bind at 1.
  rewrite (untouched_Unlock a K (mkWorld (self s) _) Hfresh).
  reflexivity.
Qed.

Lemma Lock_then_Unlock_witness :
  MData (self world16) = internalData (self world16) /\
  (e1 <- Lock Arch64 os_ok ;; e2 <- Unlock Arch64 os_ok ;; ret (e1, e2))
    world16 =
  (Returned (None, None),
   mkWorld region16 [EvSyscall SYS_MLOCK [65536; 16; 0];
                     EvSyscall SYS_MUNLOCK [65536; 16; 0]]).
Proof.
  assert (Hf : MData (self world16) = internalData (self world16))
    by reflexivity.
  split; [exact Hf |].
  exact (Lock_then_Unlock Arch64 os_ok world16 Hf).
Defined.

(** ** Creation: outcomes, words and the way back *)

Lemma to_uintptr_plus (a : arch) (x k : Z) :
  to_uintptr a (x + k * 2 ^ ptr_bits a) = to_uintptr a x.
Proof. unfold to_uintptr, wrapU. apply Z_mod_plus_full. Qed.

Lemma to_int_plus (a : arch) (x k : Z) :
  to_int a (x + k * 2 ^ ptr_bits a) = to_int a x.
Proof.
  unfold to_int, wrapS. f_equal.
  replace (x + k * 2 ^ ptr_bits a + 2 ^ (ptr_bits a - 1))
    with (x + 2 ^ (ptr_bits a - 1) + k * 2 ^ ptr_bits a) by lia.
  apply Z_mod_plus_full.
Qed.

(** Converting to [int] and back to [uintptr] is converting to [uintptr]. *)
Lemma to_uintptr_to_int (a : arch) (x : Z) :
  to_uintptr a (to_int a x) = to_uintptr a x.
Proof.
  destruct (to_int_congr a x) as (k & ->). apply to_uintptr_plus.
Qed.

(** [MapAt] in full: the log at the mapping call, the call, and what comes
    back for each answer of the kernel. *)
Lemma MapAt_run
  (a : arch) (K : OS) (t : trace) (addr fd offset length prot flags : Z) :
  let L := effective_length K t fd length in
  let t0 := log_before_mmap t fd length in
  let args := mmap_args a addr fd offset L prot flags in
  let r1 := fst (os_syscall K t0 SYS_MMAP args) in
  let errno := snd (os_syscall K t0 SYS_MMAP args) in
  let data := mkSlice r1 (to_int a L) (to_int a L) in
  MapAt a K addr fd offset length prot flags t =
  if (length =? -1) && negb (snd (os_fstat K t fd) =? 0)
  then (Returned (None, Some (Errno (snd (os_fstat K t fd)))), t0)
  else (Returned (if errno =? 0 then (Some (mkMMap data data), None)
                  else (None, Some (Errno errno))),
        t0 ++ [EvSyscall SYS_MMAP args]).
Proof.
  unfold effective_length, log_before_mmap, mmap_args.
  destruct (Z.eq_dec length (-1)) as [-> | Hne].
  - rewrite MapAt_unspecified. simpl.
    destruct (snd (os_fstat K t fd) =? 0); simpl; [| reflexivity].
    now rewrite MapAt_map_run.
  - rewrite MapAt_specified by assumption.
    replace (length =? -1) with false by (symmetry; now apply Z.eqb_neq).
    simpl. now rewrite MapAt_map_run.
Qed.

Lemma SliceAPI_MapAt_run
  (a : arch) (K : OS) (t : trace) (addr fd offset length prot flags : Z) :
  let L := effective_length K t fd length in
  let t0 := log_before_mmap t fd length in
  let args := mmap_args a addr fd offset L prot flags in
  let r1 := fst (os_syscall K t0 SYS_MMAP args) in
  let errno := snd (os_syscall K t0 SYS_MMAP args) in
  SliceAPI.MapAt a K addr fd offset length prot flags t =
  if (length =? -1) && negb (snd (os_fstat K t fd) =? 0)
  then (Returned (nil_slice, Some (Errno (snd (os_fstat K t fd)))), t0)
  else (Returned (if errno =? 0
                  then (mkSlice r1 (to_int a L) (to_int a L), None)
                  else (nil_slice, Some (Errno errno))),
        t0 ++ [EvSyscall SYS_MMAP args]).
Proof.
  unfold effective_length, log_before_mmap, mmap_args.
  destruct (Z.eq_dec length (-1)) as [-> | Hne].
  - rewrite SliceAPI_MapAt_unspecified. simpl.
    destruct (snd (os_fstat K t fd) =? 0); simpl; [| reflexivity].
    now rewrite SliceAPI_MapAt_map_run.
  - rewrite SliceAPI_MapAt_specified by assumption.
    replace (length =? -1) with false by (symmetry; now apply Z.eqb_neq).
    simpl. now rewrite SliceAPI_MapAt_map_run.
Qed.

(** X9: [MapAt] never panics and ends in exactly one of three ways,
    decided by the kernel's answers.  With length -1 and a failing [Fstat]:
    no region, the errno of [Fstat], and [Fstat] the only call.  Otherwise
    the mapping call is issued, after [Fstat] when the length is -1 and
    alone when it is not, and its errno decides: non-zero gives no region
    and that errno; zero gives the region at the address the kernel
    returned, with the nil error. *)
Theorem MapAt_outcomes
  (a : arch) (K : OS) (t : trace) (addr fd offset length prot flags : Z) :
  let run := MapAt a K addr fd offset length prot flags t in
  let size := fst (os_fstat K t fd) in
  let e_stat := snd (os_fstat K t fd) in
  let L := if length =? -1 then size else length in
  let t0 := if length =? -1 then t ++ [EvFstat fd] else t in
  let args := [addr; to_uintptr a L; to_uintptr a prot; to_uintptr a flags;
               to_uintptr a fd; to_uintptr a offset] in
  let base := fst (os_syscall K t0 SYS_MMAP args) in
  let e_map := snd (os_syscall K t0 SYS_MMAP args) in
  let data := mkSlice base (to_int a L) (to_int a L) in
  (length = -1 /\ e_stat <> 0 /\
   run = (Returned (None, Some (Errno e_stat)), t ++ [EvFstat fd])) \/
  ((length <> -1 \/ e_stat = 0) /\ e_map <> 0 /\
   run = (Returned (None, Some (Errno e_map)),
          t0 ++ [EvSyscall SYS_MMAP args])) \/
  ((length <> -1 \/ e_stat = 0) /\ e_map = 0 /\
   run = (Returned (Some (mkMMap data data), None),
          t0 ++ [EvSyscall SYS_MMAP args])).
Proof.
  cbv zeta. rewrite MapAt_run.
  unfold effective_length, log_before_mmap, mmap_args.
  destruct (length =? -1) eqn:El; simpl.
  - apply Z.eqb_eq in El.
    destruct (snd (os_fstat K t fd) =? 0) eqn:Ef; simpl.
    + apply Z.eqb_eq in Ef.
      destruct (snd (os_syscall K _ SYS_MMAP _) =? 0) eqn:Em.
      * apply Z.eqb_eq in Em. right. right.
        split; [now right | split; [exact Em | reflexivity]].
      * apply Z.eqb_neq in Em. right. left.
        split; [now right | split; [exact Em | reflexivity]].
    + apply Z.eqb_neq in Ef. left.
      split; [exact El | split; [exact Ef | reflexivity]].
  - apply Z.eqb_neq in El.
    destruct (snd (os_syscall K _ SYS_MMAP _) =? 0) eqn:Em.
    + apply Z.eqb_eq in Em. right. right.
      split; [now left | split; [exact Em | reflexivity]].
    + apply Z.eqb_neq in Em. right. left.
      split; [now left | split; [exact Em | reflexivity]].
Qed.

(** X10: [MapAt] converts the 64-bit offset and length to words before
    the call: two requests whose offsets, or whose lengths, differ by a
    multiple of 2^w are the same request to the kernel and give the same
    region.  On a 32-bit word an offset of 4 GiB is the offset 0. *)
Theorem MapAt_sees_words
  (a : arch) (K : OS) (t : trace) (addr fd offset length prot flags j k : Z) :
  length <> -1 ->
  length + j * 2 ^ ptr_bits a <> -1 ->
  MapAt a K addr fd (offset + k * 2 ^ ptr_bits a)
        (length + j * 2 ^ ptr_bits a) prot flags t
  = MapAt a K addr fd offset length prot flags t /\
  SliceAPI.MapAt a K addr fd (offset + k * 2 ^ ptr_bits a)
                 (length + j * 2 ^ ptr_bits a) prot flags t
  = SliceAPI.MapAt a K addr fd offset length prot flags t.
Proof.
  intros H1 H2.
  rewrite !MapAt_specified, !SliceAPI_MapAt_specified by assumption.
  rewrite !MapAt_map_run, !SliceAPI_MapAt_map_run. simpl.
  now rewrite !to_uintptr_plus, !to_int_plus.
Qed.

Lemma MapAt_sees_words_witness :
  4096 <> -1 /\
  MapAt Arch32 os_ok 0 3 4294967296 4096 3 1 []
  = (Returned (Some (mkMMap (mkSlice 65536 4096 4096)
                            (mkSlice 65536 4096 4096)), None),
     [EvSyscall SYS_MMAP [0; 4096; 3; 1; 3; 0]]).
Proof.
  assert (H1 : 4096 <> -1) by discriminate.
  assert (H2 : 4096 + 0 * 2 ^ ptr_bits Arch32 <> -1) by discriminate.
  destruct (MapAt_sees_words Arch32 os_ok [] 0 3 0 4096 3 1 0 1 H1 H2)
    as (Hm & _).
  split; [exact H1 |].
  etransitivity; [exact Hm | reflexivity].
Defined.

(** X11: the way back from a mapping: after a successful [MapAt] the
    region starts at the address the kernel returned, and [UnsafeUnmap]
    passes the kernel that address and the very length word the mapping
    call carried, whatever the conversion of the length to [int] did to the
    header; then the region is retired. *)
Theorem MapAt_then_UnsafeUnmap
  (a : arch) (K : OS) (t t' : trace) (addr fd offset length prot flags : Z)
  (m : MMap) :
  MapAt a K addr fd offset length prot flags t = (Returned (Some m, None), t') ->
  let L := effective_length K t fd length in
  let t0 := log_before_mmap t fd length in
  let args := mmap_args a addr fd offset L prot flags in
  let back := [Data (MData m); to_uintptr a L; 0] in
  t' = t0 ++ [EvSyscall SYS_MMAP args] /\
  Data (MData m) = fst (os_syscall K t0 SYS_MMAP args) /\
  UnsafeUnmap a K (mkWorld m t') =
    (Returned (errno_error (snd (os_syscall K t' SYS_MUNMAP back))),
     mkWorld retired (t' ++ [EvSyscall SYS_MUNMAP back])).
Proof.
  intros Hrun L t0 args back. unfold back.
  rewrite MapAt_run in Hrun. fold L t0 args in Hrun.
  destruct ((length =? -1) && negb (snd (os_fstat K t fd) =? 0));
    [discriminate |].
  destruct (snd (os_syscall K t0 SYS_MMAP args) =? 0); [| discriminate].
  injection Hrun as <- <-.
  split; [reflexivity | split; [reflexivity |]].
  match goal with
  | |- UnsafeUnmap a K ?w = _ =>
      rewrite (untouched_UnsafeUnmap a K w eq_refl)
  end.
  simpl. now rewrite to_uintptr_to_int.
Qed.

Lemma MapAt_then_UnsafeUnmap_witness :
  MapAt Arch32 os_ok 0 3 0 2147487744 3 1 [] =
    (Returned (Some (mkMMap (mkSlice 65536 (-2147479552) (-2147479552))
                            (mkSlice 65536 (-2147479552) (-2147479552))),
               None),
     [EvSyscall SYS_MMAP [0; 2147487744; 3; 1; 3; 0]]) /\
  UnsafeUnmap Arch32 os_ok
    (mkWorld (mkMMap (mkSlice 65536 (-2147479552) (-2147479552))
                     (mkSlice 65536 (-2147479552) (-2147479552)))
             [EvSyscall SYS_MMAP [0; 2147487744; 3; 1; 3; 0]]) =
    (Returned None,
     mkWorld retired [EvSyscall SYS_MMAP [0; 2147487744; 3; 1; 3; 0];
                      EvSyscall SYS_MUNMAP [65536; 2147487744; 0]]).
Proof.
  assert (Hrun : MapAt Arch32 os_ok 0 3 0 2147487744 3 1 [] =
    (Returned (Some (mkMMap (mkSlice 65536 (-2147479552) (-2147479552))
                            (mkSlice 65536 (-2147479552) (-2147479552))),
               None),
     [EvSyscall SYS_MMAP [0; 2147487744; 3; 1; 3; 0]])) by reflexivity.
  destruct (MapAt_then_UnsafeUnmap Arch32 os_ok _ _ _ _ _ _ _ _ _ Hrun)
    as (_ & _ & Hu).
  split; [exact Hrun | exact Hu].
Defined.

(** X12: mapping a whole file and asking which pages are resident: after
    a successful [Map] of a file of [size] bytes, [InCore] passes the
    validation, hands the kernel the mapped range with a vector of
    ceil(size / P) bytes, and returns that vector when the kernel accepts:
    one entry for a file within one page, two within two pages. *)
Theorem Map_then_InCore
  (a : arch) (K : OS) (t t' : trace) (fd prot flags : Z) (m : MMap) :
  Map a K fd prot flags t = (Returned (Some m, None), t') ->
  let size := fst (os_fstat K t fd) in
  let P := os_pagesize K in
  let n := (size + P - 1) / P in
  let args := [Data (MData m); size; os_make K t' n] in
  let errno := snd (os_syscall K t' SYS_MINCORE args) in
  0 < P ->
  0 <= size ->
  size + P - 1 <= max_int a ->
  t' = t ++ [EvFstat fd;
             EvSyscall SYS_MMAP [0; size; to_uintptr a prot; to_uintptr a flags;
                                 to_uintptr a fd; 0]] /\
  (n - 1) * P < size <= n * P /\
  log (snd (InCore a K (mkWorld m t'))) = t' ++ [EvSyscall SYS_MINCORE args] /\
  exists b : Buffer,
    Z.of_nat (List.length (buf_bytes b)) = n /\
    fst (InCore a K (mkWorld m t')) =
      Returned (if errno =? 0 then (Some b, None)
                else (None, Some (Errno errno))).
Proof.
  intros Hrun size P n args errno HP Hsize Hmax.
  unfold Map in Hrun. rewrite MapAt_run in Hrun.
  unfold effective_length in Hrun. simpl in Hrun. fold size in Hrun.
  destruct (negb (snd (os_fstat K t fd) =? 0)); [discriminate |].
  destruct (snd (os_syscall K _ SYS_MMAP _) =? 0); [| discriminate].
  injection Hrun as Hm Ht.
  assert (Hint : to_int a size = size).
  { apply to_int_small. unfold in_int, min_int.
    pose proof (pow_ptr_bits_pos a). pose proof (pow_ptr_bits_half a). lia. }
  rewrite Hint in Hm.
  assert (Hu : to_uintptr a size = size).
  { apply to_uintptr_small. unfold max_int in Hmax.
    pose proof (pow_ptr_bits_half a). lia. }
  assert (HL : Len (MData m) = size) by (rewrite <- Hm; reflexivity).
  assert (Hc : checkSlice a (self (mkWorld m t')) (MData m) = None)
    by (rewrite <- Hm; apply checkSlice_self).
  assert (Hn : to_int a (Z.quot (int_sub a (int_add a (Len (MData m)) P) 1) P)
               = n)
    by (rewrite HL; apply page_count; assumption).
  assert (Hn0 : 0 <= n) by (apply Z.div_pos; lia).
  rewrite InCore_eq. simpl self.
  rewrite (InCoreSlice_accepted a K (mkWorld m t') (MData m) n Hc
             ltac:(unfold P in HP; lia) Hn Hn0).
  simpl. rewrite HL, Hu. fold args errno.
  split.
  { rewrite <- Ht. unfold log_before_mmap, mmap_args. simpl.
    now rewrite Hu, to_uintptr_0, <- app_assoc. }
  split; [apply ceiling_bounds; assumption |].
  split; [reflexivity |].
  eexists. split.
  2: { unfold incore_result. destruct (errno =? 0); simpl; reflexivity. }
  rewrite kernel_stores_length. simpl.
  rewrite repeat_length. now apply Z2Nat.id.
Qed.

Lemma Map_then_InCore_witness :
  Map Arch64 os_ok 3 3 1 [] =
    (Returned (Some region16, None),
     [EvFstat 3; EvSyscall SYS_MMAP [0; 16; 3; 1; 3; 0]]) /\
  (1 - 1) * 4096 < 16 <= 1 * 4096 /\
  log (snd (InCore Arch64 os_ok
              (mkWorld region16
                 [EvFstat 3; EvSyscall SYS_MMAP [0; 16; 3; 1; 3; 0]]))) =
    [EvFstat 3; EvSyscall SYS_MMAP [0; 16; 3; 1; 3; 0];
     EvSyscall SYS_MINCORE [65536; 16; 131072]].
Proof.
  assert (Hrun : Map Arch64 os_ok 3 3 1 [] =
    (Returned (Some region16, None),
     [EvFstat 3; EvSyscall SYS_MMAP [0; 16; 3; 1; 3; 0]])) by reflexivity.
  destruct (Map_then_InCore Arch64 os_ok _ _ _ _ _ _ Hrun
              ltac:(simpl; lia) ltac:(simpl; lia)
              ltac:(vm_compute; discriminate)) as (_ & Hc & Hl & _).
  split; [exact Hrun | split; [exact Hc | exact Hl]].
Defined.

(** ** The earlier API beside the later one *)

Section Earlier.

Variable a : arch.
Variable K : OS.

Lemma SliceAPI_UnsafeUnmap_run (r : SliceHeader) (t : trace) :
  issues K (SliceAPI.UnsafeUnmap a K r) t
         SYS_MUNMAP [Data r; to_uintptr a (Len r); 0].
Proof.
  unfold issues, SliceAPI.UnsafeUnmap. unfold_monad.
  now destruct (os_syscall K t SYS_MUNMAP _).
Qed.

Lemma SliceAPI_Sync_run (r : SliceHeader) (x : Z) (t : trace) :
  issues K (SliceAPI.Sync a K r x) t
         SYS_MSYNC [Data r; to_uintptr a (Len r); to_uintptr a x].
Proof.
  unfold issues, SliceAPI.Sync. unfold_monad.
  now destruct (os_syscall K t SYS_MSYNC _).
Qed.

Lemma SliceAPI_Advise_run (r : SliceHeader) (x : Z) (t : trace) :
  issues K (SliceAPI.Advise a K r x) t
         SYS_MADVISE [Data r; to_uintptr a (Len r); to_uintptr a x].
Proof.
  unfold issues, SliceAPI.Advise. unfold_monad.
  now destruct (os_syscall K t SYS_MADVISE _).
Qed.

Lemma SliceAPI_Protect_run (r : SliceHeader) (x : Z) (t : trace) :
  issues K (SliceAPI.Protect a K r x) t
         SYS_MPROTECT [Data r; to_uintptr a (Len r); to_uintptr a x].
Proof.
  unfold issues, SliceAPI.Protect. unfold_monad.
  now destruct (os_syscall K t SYS_MPROTECT _).
Qed.

Lemma SliceAPI_Lock_run (r : SliceHeader) (t : trace) :
  issues K (SliceAPI.Lock a K r) t
         SYS_MLOCK [Data r; to_uintptr a (Len r); 0].
Proof.
  unfold issues, SliceAPI.Lock. unfold_monad.
  now destruct (os_syscall K t SYS_MLOCK _).
Qed.

Lemma SliceAPI_Unlock_run (r : SliceHeader) (t : trace) :
  issues K (SliceAPI.Unlock a K r) t
         SYS_MUNLOCK [Data r; to_uintptr a (Len r); 0].
Proof.
  unfold issues, SliceAPI.Unlock. unfold_monad.
  now destruct (os_syscall K t SYS_MUNLOCK _).
Qed.

(** A method of the later API that forwards is the earlier method run
    on the log. *)
Lemma forwards_is_lift
  (c : M World (option error)) (d : M trace (option error)) (s : World)
  (nr : sysno) (args : list Z) :
  forwards K c s nr args -> issues K d (log s) nr args -> c s = lift d s.
Proof.
  unfold forwards, issues, lift. intros -> ->. reflexivity.
Qed.

End Earlier.

(** X13: the two API shapes agree wherever the later one lets the call
    through: for a slice that passes the validation, each scoped method of
    the struct API returns what the method of the earlier API returns on
    that slice as its receiver, and the kernel sees the same call. *)
Theorem scoped_operations_agree_with_earlier_API
  (a : arch) (K : OS) (s : World) (r : SliceHeader) (x : Z) :
  checkSlice a (self s) r = None ->
  UnsafeUnmapSlice a K r s = lift (SliceAPI.UnsafeUnmap a K r) s /\
  SyncSlice a K r x s = lift (SliceAPI.Sync a K r x) s /\
  AdviseSlice a K r x s = lift (SliceAPI.Advise a K r x) s /\
  ProtectSlice a K r x s = lift (SliceAPI.Protect a K r x) s /\
  LockSlice a K r s = lift (SliceAPI.Lock a K r) s /\
  UnlockSlice a K r s = lift (SliceAPI.Unlock a K r) s.
Proof.
  intros Hc.
  split; [| split; [| split; [| split; [| split]]]];
    eapply forwards_is_lift.
  - now apply UnsafeUnmapSlice_accepted.
  - apply SliceAPI_UnsafeUnmap_run.
  - now apply SyncSlice_accepted.
  - apply SliceAPI_Sync_run.
  - now apply AdviseSlice_accepted.
  - apply SliceAPI_Advise_run.
  - now apply ProtectSlice_accepted.
  - apply SliceAPI_Protect_run.
  - now apply LockSlice_accepted.
  - apply SliceAPI_Lock_run.
  - now apply UnlockSlice_accepted.
  - apply SliceAPI_Unlock_run.
Qed.

Lemma scoped_operations_agree_with_earlier_API_witness :
  checkSlice Arch64 (self world16) (mkSlice 65543 3 9) = None /\
  LockSlice Arch64 os_ok (mkSlice 65543 3 9) world16 =
    lift (SliceAPI.Lock Arch64 os_ok (mkSlice 65543 3 9)) world16.
Proof.
  assert (Hc : checkSlice Arch64 (self world16) (mkSlice 65543 3 9) = None)
    by reflexivity.
  destruct (scoped_operations_agree_with_earlier_API Arch64 os_ok world16
              (mkSlice 65543 3 9) 4 Hc) as (_ & _ & _ & _ & Hl & _).
  split; [exact Hc | exact Hl].
Defined.

(** X14: in the earlier API a method called on a slice [r = mmap[lo:hi]]
    of the region acts on those bytes only: the kernel gets the address of
    [r] ([lo] bytes after the base, or the base when [lo] is the capacity)
    and the length [hi - lo]. *)
Theorem earlier_API_on_subslice
  (a : arch) (K : OS) (t : trace) (mmap r : SliceHeader) (lo hi x : Z) :
  wf_slice a mmap ->
  0 <= lo <= hi ->
  hi <= Len mmap ->
  slice_range a mmap lo hi = Some r ->
  let range3 (third : Z) := [subslice_start mmap lo; hi - lo; third] in
  Data r = subslice_start mmap lo /\
  issues K (SliceAPI.UnsafeUnmap a K r) t SYS_MUNMAP (range3 0) /\
  issues K (SliceAPI.Sync a K r x) t SYS_MSYNC (range3 (to_uintptr a x)) /\
  issues K (SliceAPI.Advise a K r x) t SYS_MADVISE (range3 (to_uintptr a x)) /\
  issues K (SliceAPI.Protect a K r x) t SYS_MPROTECT
         (range3 (to_uintptr a x)) /\
  issues K (SliceAPI.Lock a K r) t SYS_MLOCK (range3 0) /\
  issues K (SliceAPI.Unlock a K r) t SYS_MUNLOCK (range3 0).
Proof.
  intros Hd Hlo Hhi E range3. unfold range3.
  destruct (slice_range_inside a mmap r lo hi Hd Hlo Hhi E) as (Hr & Hwf).
  pose proof (addressable_len a r (wf_slice_addressable a r Hwf)) as Hlen.
  assert (HD : Data r = subslice_start mmap lo) by (rewrite Hr; reflexivity).
  assert (HL : Len r = hi - lo) by (rewrite Hr; reflexivity).
  rewrite HL in Hlen.
  split; [exact HD |].
  split; [| split; [| split; [| split; [| split]]]].
  - pose proof (SliceAPI_UnsafeUnmap_run a K r t) as H.
    now rewrite HD, HL, Hlen in H.
  - pose proof (SliceAPI_Sync_run a K r x t) as H.
    now rewrite HD, HL, Hlen in H.
  - pose proof (SliceAPI_Advise_run a K r x t) as H.
    now rewrite HD, HL, Hlen in H.
  - pose proof (SliceAPI_Protect_run a K r x t) as H.
    now rewrite HD, HL, Hlen in H.
  - pose proof (SliceAPI_Lock_run a K r t) as H.
    now rewrite HD, HL, Hlen in H.
  - pose proof (SliceAPI_Unlock_run a K r t) as H.
    now rewrite HD, HL, Hlen in H.
Qed.

Lemma earlier_API_on_subslice_witness :
  slice_range Arch64 (mkSlice 65536 16 16) 7 10 = Some (mkSlice 65543 3 9) /\
  SliceAPI.Sync Arch64 os_ok (mkSlice 65543 3 9) 4 [] =
    (Returned None, [EvSyscall SYS_MSYNC [65543; 3; 4]]).
Proof.
  assert (Hd : wf_slice Arch64 (mkSlice 65536 16 16))
    by (unfold wf_slice; simpl; lia).
  assert (E : slice_range Arch64 (mkSlice 65536 16 16) 7 10
              = Some (mkSlice 65543 3 9)) by reflexivity.
  destruct (earlier_API_on_subslice Arch64 os_ok [] _ _ 7 10 4 Hd
              ltac:(lia) ltac:(simpl; lia) E) as (_ & _ & Hs & _).
  split; [exact E | exact Hs].
Defined.

(** ** The page-granular adapter on a 32-bit word *)

Lemma to_uintptr32_range (x : Z) : 0 <= to_uintptr Arch32 x < 2 ^ 32.
Proof. apply (to_uintptr_range Arch32 x). Qed.

(** X15: on a 32-bit word the [SYS_MMAP2] adapter issues its call exactly
    for the offsets that are whole pages of 4096 bytes from 0 up to, and
    not including, 2^44 (16 TiB), passing the page number; every other
    offset, unaligned, negative or too far, gets EINVAL and no call. *)
Theorem mmap2_accepts_exactly
  (K : OS) (t : trace) (addr length prot flags fd offset : Z) :
  in_int64 offset ->
  let args := [addr; length; prot; flags; fd; offset / 4096] in
  linux_mmap2.mmap_syscall Arch32 K addr length prot flags fd offset t =
  if (offset mod 4096 =? 0) && (0 <=? offset) && (offset <? 2 ^ 44)
  then (Returned (os_syscall K t SYS_MMAP2 args),
        t ++ [EvSyscall SYS_MMAP2 args])
  else (Returned (0, EINVAL), t).
Proof.
  intros Hoff args. unfold args.
  unfold linux_mmap2.mmap_syscall, linux_mmap2.page_of.
  destruct ((offset mod 4096 =? 0) && (0 <=? offset) && (offset <? 2 ^ 44))
    eqn:Efit.
  - apply andb_prop in Efit as [Efit E3].
    apply andb_prop in Efit as [E1 E2].
    apply Z.eqb_eq in E1. apply Z.leb_le in E2. apply Z.ltb_lt in E3.
    rewrite Z.quot_div_nonneg by lia.
    assert (Hdm : offset = 4096 * (offset / 4096))
      by (pose proof (Z.div_mod offset 4096 ltac:(lia)); lia).
    assert (Hp : 0 <= offset / 4096 < 2 ^ 32).
    { split; [apply Z.div_pos; lia |].
      apply Z.div_lt_upper_bound; [lia |]. change (4096 * 2 ^ 32) with (2 ^ 44).
      exact E3. }
    rewrite (to_uintptr_small Arch32 _ Hp).
    rewrite (to_int64_small (offset / 4096))
      by (unfold in_int64; lia).
    replace (offset / 4096 * 4096) with offset by lia.
    rewrite (to_int64_small offset Hoff), Z.eqb_refl.
    unfold_monad. now destruct (os_syscall K t SYS_MMAP2 _).
  - replace (offset =? _) with false; [reflexivity |].
    symmetry. apply Z.eqb_neq. intros Heq.
    pose proof (to_uintptr32_range (Z.quot offset 4096)) as Hp.
    set (p := to_uintptr Arch32 (Z.quot offset 4096)) in *.
    rewrite (to_int64_small p) in Heq by (unfold in_int64; lia).
    rewrite (to_int64_small (p * 4096)) in Heq by (unfold in_int64; lia).
    assert (E1 : (offset mod 4096 =? 0) = true)
      by (apply Z.eqb_eq; rewrite Heq; apply Z_mod_mult).
    assert (E2 : (0 <=? offset) = true) by (apply Z.leb_le; lia).
    assert (E3 : (offset <? 2 ^ 44) = true) by (apply Z.ltb_lt; lia).
    rewrite E1, E2, E3 in Efit. discriminate.
Qed.

Lemma mmap2_accepts_exactly_witness :
  in_int64 17592186044416 /\
  linux_mmap2.mmap_syscall Arch32 os_ok 0 16 3 1 3 17592186044416 []
    = (Returned (0, EINVAL), []) /\
  linux_mmap2.mmap_syscall Arch32 os_ok 0 16 3 1 3 8192 []
    = (Returned (65536, 0), [EvSyscall SYS_MMAP2 [0; 16; 3; 1; 3; 2]]).
Proof.
  assert (H1 : in_int64 17592186044416) by (unfold in_int64; lia).
  assert (H2 : in_int64 8192) by (unfold in_int64; lia).
  split; [exact H1 | split].
  - exact (mmap2_accepts_exactly os_ok [] 0 16 3 1 3 17592186044416 H1).
  - exact (mmap2_accepts_exactly os_ok [] 0 16 3 1 3 8192 H2).
Defined.

(** ** What the residency query can do *)

(** X16: the residency query ends in one of three ways: an error and no
    vector, a vector and the nil error, or a panic of the allocation or the
    division.  It never assigns to the receiver, it issues at most one
    call, which is [SYS_MINCORE] on the address and length of its slice,
    and none when it panics; a vector comes back only for a slice that
    passed the validation, after that call, with as many bytes as its
    header says. *)
Theorem InCoreSlice_outcomes (a : arch) (K : OS) (s : World) (r : SliceHeader) :
  let run := InCoreSlice a K r s in
  let called (vec : Z) :=
    log s ++ [EvSyscall SYS_MINCORE [Data r; to_uintptr a (Len r); vec]] in
  self (snd run) = self s /\
  ((exists e : error,
       fst run = Returned (None, Some e) /\
       (log (snd run) = log s \/ exists vec, log (snd run) = called vec)) \/
   (exists b : Buffer,
       fst run = Returned (Some b, None) /\
       checkSlice a (self s) r = None /\
       log (snd run) = called (Data (buf_hdr b)) /\
       Z.of_nat (List.length (buf_bytes b)) = Len (buf_hdr b)) \/
   (exists msg : string,
       fst run = Panicked msg /\ log (snd run) = log s)).
Proof.
  intros run called. unfold run, called.
  split; [apply InCoreSlice_keeps_self |].
  unfold InCoreSlice, int_div, make_bytes. unfold_monad.
  destruct (checkSlice a (self s) r) eqn:Ec.
  { left. eexists. split; [reflexivity | now left]. }
  destruct (Getpagesize K =? 0).
  { right. right. eexists. split; reflexivity. }
  simpl.
  set (n := to_int a _).
  destruct (n <? 0) eqn:En.
  { right. right. eexists. split; reflexivity. }
  simpl.
  destruct (os_syscall K (log s) SYS_MINCORE _) as [r1 errno]. simpl.
  destruct (negb (errno =? 0)); simpl.
  - left. eexists. split; [reflexivity |]. right. eexists. reflexivity.
  - right. left. eexists. split; [reflexivity |].
    split; [reflexivity | split; [reflexivity |]].
    simpl. rewrite length_map, length_seq, repeat_length.
    apply Z2Nat.id. apply Z.ltb_ge in En. exact En.
Qed.

(** ** After a partial unmap *)

(** X17: the object does not remember a partial unmap: once
    [UnsafeUnmapSlice] has handed an accepted slice to the kernel, whatever
    the kernel answered, a following [LockSlice] on that same slice passes
    the validation again and reaches the kernel with the unmapped range. *)
Theorem UnsafeUnmapSlice_then_LockSlice
  (a : arch) (K : OS) (s : World) (r : SliceHeader) :
  checkSlice a (self s) r = None ->
  let args := [Data r; to_uintptr a (Len r); 0] in
  let t1 := log s ++ [EvSyscall SYS_MUNMAP args] in
  (e1 <- UnsafeUnmapSlice a K r ;; e2 <- LockSlice a K r ;; ret (e1, e2)) s =
  (Returned (errno_error (snd (os_syscall K (log s) SYS_MUNMAP args)),
             errno_error (snd (os_syscall K t1 SYS_MLOCK args))),
   mkWorld (self s) (t1 ++ [EvSyscall SYS_MLOCK args])).
Proof.
  intros Hc args t1.
  unfold bind at 1. rewrite (UnsafeUnmapSlice_accepted a K s r Hc).
  unfold bind at 1.
  rewrite (LockSlice_accepted a K (mkWorld (self s) _) r Hc).
  reflexivity.
Qed.

Lemma UnsafeUnmapSlice_then_LockSlice_witness :
  checkSlice Arch64 (self world16) (mkSlice 65543 3 9) = None /\
  (e1 <- UnsafeUnmapSlice Arch64 os_ok (mkSlice 65543 3 9) ;;
   e2 <- LockSlice Arch64 os_ok (mkSlice 65543 3 9) ;; ret (e1, e2)) world16 =
  (Returned (None, None),
   mkWorld region16 [EvSyscall SYS_MUNMAP [65543; 3; 0];
                     EvSyscall SYS_MLOCK [65543; 3; 0]]).
Proof.
  assert (Hc : checkSlice Arch64 (self world16) (mkSlice 65543 3 9) = None)
    by reflexivity.
  split; [exact Hc |].
  exact (UnsafeUnmapSlice_then_LockSlice Arch64 os_ok world16 _ Hc).
Defined.
